(** * Planet Zero: the monthly simulator and its governance policy

    A shallow embedding of [src/pz_model.py] (the core simulator
    [simulate_pz] and the policy functions), of the two trajectory
    re-implementations [run_path_until] in [src/phase2_viability_grid.py]
    and [dashboard/phase2_dashboard.py], of the threshold query
    [first_crossing_month], of the grid and dashboard drivers, of the
    Phase 1 simulator of [src/common.py] and of the sweeps.

    Numbers.  The development has two models of Python's [float].

    The exact model, in which the general theorems are proved, takes
    floats as rationals [Q]: every operation is exact and never
    overflows.  The one place where the code manufactures an infinity
    ([float("inf")] / [np.inf] for the coverage when costs are not
    positive) is modelled by the type [coverage], which adds [PInf].
    Python [int] values are [Z], and an [int] operand of a mixed
    operation is injected into [Q].  A [ZeroDivisionError] is the
    [None] of an [option].  What this model leaves out is rounding,
    overflow to an infinity or a NaN, and the [OverflowError] of an
    [int] too large for a float or of a power out of range.  The
    theorems proved in it are therefore of two kinds: statements about
    control flow, counters and comparisons, which hold whichever way a
    rounding falls; and statements about the values, which carry the
    hypothesis that the run stays in the finite range of the floats
    ([run_in_range]) or that an [int] converts.

    The binary64 model ([Float64]) is [simulate_pz] over the IEEE 754
    floats themselves, with their rounding, infinities and NaN.  It is
    used to evaluate the program on concrete inputs outside the finite
    range, where the exact model does not follow it. *)

From Stdlib Require Import ZArith QArith Qabs Qpower Lqa Lia List Bool.
From Stdlib Require Import PrimFloat FloatOps SpecFloat.
Import ListNotations.

Local Open Scope Z_scope.
Local Open Scope Q_scope.

(** ** Comparisons and Python's [min] / [max] *)

Definition Qltb (x y : Q) : bool := negb (Qle_bool y x).
Definition Qleb (x y : Q) : bool := Qle_bool x y.

(** Python's [min(a, b)] keeps [a] unless [b < a]; [max(a, b)] keeps [a]
    unless [b > a]. *)
Definition py_min (a b : Q) : Q := if Qltb b a then b else a.
Definition py_max (a b : Q) : Q := if Qltb a b then b else a.

(** [def clamp(x, lo, hi): return max(lo, min(hi, x))] *)
Definition clamp (x lo hi : Q) : Q := py_max lo (py_min hi x).

(** ** Parameters ([class PZParams]) *)

Record PZParams := mkPZParams {
  (* Finance *)
  r_annual : Q;
  (* Starting state *)
  A0 : Q;
  m0 : Q;
  employees0 : Z;
  (* Costs *)
  cost_per_employee : Q;
  other_fixed_costs : Q;
  (* BPZ internal allocation *)
  fs_pct_of_bpz : Q;
  impact_pct_of_bpz_rem : Q;
  internal_pct_of_bpz_rem : Q;
  (* Internal split *)
  rd_pct_of_internal : Q;
  wellbeing_pct_of_internal : Q;
  legal_pct_of_internal : Q;
  (* Growth dynamics *)
  churn_rate : Q;
  acq_churn_ratio : Q;
  k_acq : Q;
  km_margin : Q;
  krd_margin : Q;
  max_margin_growth : Q;
  (* Hiring rule *)
  hire_cooldown_months : Z;
  hire_trigger_buffer : Q;
  (* Governance for p *)
  use_dynamic_p : bool;
  p_override : Q;
  p4_max : Q;
  rev_growth : Q
}.

(** The dataclass defaults. *)
Definition default_params : PZParams := {|
  r_annual := 0.04;
  A0 := 100; m0 := 25; employees0 := 2%Z;
  cost_per_employee := 1000; other_fixed_costs := 0;
  fs_pct_of_bpz := 0.30;
  impact_pct_of_bpz_rem := 0.60; internal_pct_of_bpz_rem := 0.40;
  rd_pct_of_internal := 0.60; wellbeing_pct_of_internal := 0.25;
  legal_pct_of_internal := 0.15;
  churn_rate := 0.03; acq_churn_ratio := 1; k_acq := 0.20;
  km_margin := 0.010; krd_margin := 0.006; max_margin_growth := 0.03;
  hire_cooldown_months := 3%Z; hire_trigger_buffer := 1.20;
  use_dynamic_p := true; p_override := -1; p4_max := 0.70;
  rev_growth := 0
|}.

Definition r_monthly (r : Q) : Q := r / 12.

Definition fs_ratio_for_employees (employees : Z) : Z :=
  if (employees <=? 2)%Z then 3%Z
  else if (employees <=? 6)%Z then 6%Z
  else 12%Z.

(** ** Policy engine *)

(** A float that may be [+inf]: the coverage [FS / costs], which the
    code sets to [float("inf")] when costs are not positive. *)
Inductive coverage : Type :=
| Fin (c : Q)
| PInf.

(** [fs_cov < b] for a finite bound [b]. *)
Definition cov_ltb (c : coverage) (b : Q) : bool :=
  match c with
  | Fin q => Qltb q b
  | PInf => false
  end.

(** [fs_cov >= b] for a finite bound [b]. *)
Definition cov_geb (c : coverage) (b : Q) : bool :=
  match c with
  | Fin q => Qleb b q
  | PInf => true
  end.

(** [fs_cov - off] and [fs_cov / span] for finite [off], [span]. *)
Definition cov_sub (c : coverage) (off : Q) : coverage :=
  match c with
  | Fin q => Fin (q - off)
  | PInf => PInf
  end.

Definition cov_div (c : coverage) (span : Q) : coverage :=
  match c with
  | Fin q => Fin (q / span)
  | PInf => PInf
  end.

(** [clamp(lam, lo, hi)] when [lam] may be infinite:
    [min(hi, inf)] keeps [hi] since [inf < hi] is false. *)
Definition clamp_cov (x : coverage) (lo hi : Q) : Q :=
  match x with
  | Fin q => clamp q lo hi
  | PInf => py_max lo hi
  end.

(** [p_bounds_by_fs]: returns [(pmin, pmax, phase, lam)]. *)
Definition p_bounds_by_fs (fs_cov : coverage) (p4_max : Q) : Q * Q * Z * Q :=
  let '(pmin, pmax, lam, phase) :=
    if cov_ltb fs_cov 3 then (0.05, 0.15, cov_div fs_cov 3, 1%Z)
    else if cov_ltb fs_cov 6 then (0.20, 0.35, cov_div (cov_sub fs_cov 3) 3, 2%Z)
    else if cov_ltb fs_cov 12 then (0.30, 0.50, cov_div (cov_sub fs_cov 6) 6, 3%Z)
    else (0.40, p4_max, cov_div (cov_sub fs_cov 12) 12, 4%Z) in
  let lam := clamp_cov lam 0 1 in
  (pmin, pmax, phase, lam).

Definition p_dynamic_from_fs (fs_cov : coverage) (p4_max : Q) : Q :=
  let '(pmin, pmax, _, lam) := p_bounds_by_fs fs_cov p4_max in
  pmin + lam * (pmax - pmin).

(** [0.0 <= x <= 1.0] *)
Definition in_unit (x : Q) : bool := Qleb 0 x && Qleb x 1.

(** The choice of the effective share inside [simulate_pz]
    (override > dynamic > fixed, then [clamp]). *)
Definition effective_p (params : PZParams) (p_to_bc : Q) (fs_cov : coverage) : Q :=
  let p_eff :=
    if in_unit (p_override params) then p_override params
    else if use_dynamic_p params then p_dynamic_from_fs fs_cov (p4_max params)
    else p_to_bc in
  clamp p_eff 0 1.

(** ** The core simulator ([simulate_pz]) *)

(** Python's float division: raises [ZeroDivisionError] on a zero divisor. *)
Definition py_div (x y : Q) : option Q :=
  if Qeq_bool y 0 then None else Some (x / y).

Notation "x <- c ;; k" :=
  (match c with Some x => k | None => None end)
  (at level 61, c at next level, right associativity).
Notation "' p <- c ;; k" :=
  (match c with Some p => k | None => None end)
  (at level 61, p pattern, c at next level, right associativity).

(** The local variables of the loop. *)
Record State := mkState {
  A : Q;
  m : Q;
  employees : Z;
  BC : Q;
  FS : Q;
  impact_cum : Q;
  months_u_pos : Z;
  first_impact_month : option Z;
  u_sum : Q;
  hires : Z;
  last_hire_month : Z;
  last_p_eff : option Q;       (* [None] is the initial NaN *)
  last_phase : option Z        (* [None] is the initial NaN *)
}.

Definition init_state (params : PZParams) (B0 FS0 : Q) : State := {|
  A := A0 params;
  m := m0 params;
  employees := employees0 params;
  BC := B0;
  FS := FS0;
  impact_cum := 0;
  months_u_pos := 0%Z;
  first_impact_month := None;
  u_sum := 0;
  hires := 0%Z;
  last_hire_month := (-10000)%Z;
  last_p_eff := None;
  last_phase := None
|}.

(** [FS / costs if costs > 0 else inf] *)
Definition fs_coverage (fs costs : Q) : coverage :=
  if Qltb 0 costs then Fin (fs / costs) else PInf.

(** One iteration of [for t in range(1, months + 1)]. *)
Definition month_body (params : PZParams) (p_to_bc : Q) (t : Z) (s : State)
  : option State :=
  let rm := r_monthly (r_annual params) in
  let costs := inject_Z (employees s) * cost_per_employee params
               + other_fixed_costs params in
  let revenue := A s * m s in
  let interest := rm * (BC s + FS s) in
  let U := revenue + interest - costs in
  let u_sum' := u_sum s + U in
  if Qltb 0 U then
    let months_u_pos' := (months_u_pos s + 1)%Z in
    let fs_cov := fs_coverage (FS s) costs in
    let p_eff := effective_p params p_to_bc fs_cov in
    let '(_, _, phase_id, _) := p_bounds_by_fs fs_cov (p4_max params) in
    (* Split *)
    let BC_in := p_eff * U in
    let BPZ_in := (1 - p_eff) * U in
    let BC' := BC s + BC_in in
    (* BPZ allocation *)
    let FS_in := fs_pct_of_bpz params * BPZ_in in
    let FS' := FS s + FS_in in
    let BPZ_rem := (1 - fs_pct_of_bpz params) * BPZ_in in
    let impact := impact_pct_of_bpz_rem params * BPZ_rem in
    let internal := internal_pct_of_bpz_rem params * BPZ_rem in
    let rd := rd_pct_of_internal params * internal in
    let impact_cum' := impact_cum s + impact in
    let first_impact_month' :=
      match first_impact_month s with
      | None => if Qltb 0 impact then Some t else None
      | Some t0 => Some t0
      end in
    (* growth *)
    let intensity_den := costs + 1 in
    let churn := churn_rate params * A s in
    let acq_baseline := acq_churn_ratio params * churn in
    i1 <- py_div impact intensity_den ;;
    let acq_boost := k_acq params * i1 in
    let acquisitions := acq_baseline + acq_boost in
    let A' := py_max 0 (A s + acquisitions - churn) in
    i2 <- py_div impact intensity_den ;;
    i3 <- py_div rd intensity_den ;;
    let g_m := km_margin params * i2 + krd_margin params * i3 in
    let g_m := py_min (max_margin_growth params) (py_max 0 g_m) in
    let m' := m s * (1 + g_m) in
    (* hiring decision (post-allocation FS) *)
    let fs_ratio := fs_ratio_for_employees (employees s) in
    let fs_target := inject_Z fs_ratio * costs in
    let hire :=
      (hire_cooldown_months params <=? t - last_hire_month s)%Z
      && Qleb (hire_trigger_buffer params * fs_target) FS' in
    Some {|
      A := A'; m := m';
      employees := if hire then (employees s + 1)%Z else employees s;
      BC := BC'; FS := FS';
      impact_cum := impact_cum';
      months_u_pos := months_u_pos';
      first_impact_month := first_impact_month';
      u_sum := u_sum';
      hires := if hire then (hires s + 1)%Z else hires s;
      last_hire_month := if hire then t else last_hire_month s;
      last_p_eff := Some p_eff;
      last_phase := Some phase_id
    |}
  else
    (* conservative freeze *)
    Some {|
      A := A s; m := m s; employees := employees s;
      BC := BC s; FS := FS s;
      impact_cum := impact_cum s;
      months_u_pos := months_u_pos s;
      first_impact_month := first_impact_month s;
      u_sum := u_sum';
      hires := hires s;
      last_hire_month := last_hire_month s;
      last_p_eff := last_p_eff s;
      last_phase := last_phase s
    |}.

(** [range(1, months + 1)] *)
Definition month_range (months : Z) : list Z :=
  map Z.of_nat (seq 1 (Z.to_nat months)).

(** The loop over a list of months; an exception ends it. *)
Definition run_months (params : PZParams) (p_to_bc : Q)
  (ts : list Z) (s : option State) : option State :=
  fold_left (fun acc t => s0 <- acc ;; month_body params p_to_bc t s0) ts s.

(** The loop state once the first [k] months have run. *)
Definition state_after (params : PZParams) (p_to_bc B0 FS0 : Q) (k : nat)
  : option State :=
  run_months params p_to_bc (month_range (Z.of_nat k))
    (Some (init_state params B0 FS0)).

(** The returned dictionary. *)
Record Summary := mkSummary {
  months_out : Z;
  p_to_bc_input : Q;
  p_eff_last : option Q;
  phase_last : option Z;
  impact_cum_end : Q;
  BC_end : Q;
  FS_end : Q;
  employees_end : Z;
  hires_total : Z;
  A_end : Q;
  m_end : Q;
  avg_U : Q;
  pct_months_U_pos : Q;
  first_impact_month_out : option Z;   (* [None] is NaN *)
  fs_ratio_final : Z;
  fs_target_final : Q;
  fs_coverage_months_final : coverage;
  p_range_min_final : Q;
  p_range_max_final : Q;
  p_dyn_final : Q;
  phase_final : Z;
  lambda_in_phase_final : Q
}.

(** The code after the loop. *)
Definition summarize (months : Z) (p_to_bc : Q) (params : PZParams)
  (s : State) : Summary :=
  let pct_u_pos :=
    if (0 <? months)%Z then inject_Z (months_u_pos s) / inject_Z months
    else 0 in
  let final_costs := inject_Z (employees s) * cost_per_employee params
                     + other_fixed_costs params in
  let fs_ratio_final := fs_ratio_for_employees (employees s) in
  let fs_target_final := inject_Z fs_ratio_final * final_costs in
  let fs_cov_final := fs_coverage (FS s) final_costs in
  let '(pmin_f, pmax_f, phase_f, lam_f) :=
    p_bounds_by_fs fs_cov_final (p4_max params) in
  let p_dyn_final := p_dynamic_from_fs fs_cov_final (p4_max params) in
  {|
    months_out := months;
    p_to_bc_input := p_to_bc;
    p_eff_last := last_p_eff s;
    phase_last := last_phase s;
    impact_cum_end := impact_cum s;
    BC_end := BC s;
    FS_end := FS s;
    employees_end := employees s;
    hires_total := hires s;
    A_end := A s;
    m_end := m s;
    avg_U := if (0 <? months)%Z then u_sum s / inject_Z months else 0;
    pct_months_U_pos := pct_u_pos;
    first_impact_month_out := first_impact_month s;
    fs_ratio_final := fs_ratio_final;
    fs_target_final := fs_target_final;
    fs_coverage_months_final := fs_cov_final;
    p_range_min_final := pmin_f;
    p_range_max_final := pmax_f;
    p_dyn_final := p_dyn_final;
    phase_final := phase_f;
    lambda_in_phase_final := lam_f
  |}.

Definition simulate_pz (months : Z) (p_to_bc : Q) (params : PZParams)
  (B0 FS0 : Q) : option Summary :=
  s <- run_months params p_to_bc (month_range months)
         (Some (init_state params B0 FS0)) ;;
  Some (summarize months p_to_bc params s).

(** ** Trajectories as data frames, and the threshold query *)

(** [pd.DataFrame(rows)] built from a list of dictionaries has the
    columns of its rows: a frame built from no row has no column, and
    [traj[col]] raises [KeyError] on it ([None] here). *)
Definition column {Row X : Type} (col : Row -> X) (traj : list Row)
  : option (list X) :=
  match traj with
  | [] => None
  | _ :: _ => Some (map col traj)
  end.

(** The answer of the query: a month, or "not reached"
    ([None] in the dashboard, NaN in the grid script). *)
Inductive crossing : Type :=
| NotReached
| Reached (t : Z).

Section Crossing.
Context {Row : Type}.
(** the month column and the coverage column of the frame *)
Variable row_month : Row -> Z.
Variable row_cov : Row -> coverage.

(** [traj.index[traj[cov] >= threshold].tolist()] over the default
    index 0, 1, 2, ... *)
Definition hit_index (covs : list coverage) (threshold : Q) : list nat :=
  map fst
    (filter (fun ic => cov_geb (snd ic) threshold)
       (combine (seq 0 (length covs)) covs)).

Definition first_crossing (traj : list Row) (threshold : Q)
  : option crossing :=
  covs <- column row_cov traj ;;
  match hit_index covs threshold with
  | [] => Some NotReached
  | i :: _ =>
      r <- nth_error traj i ;;       (* [traj.loc[hit[0], month]] *)
      Some (Reached (row_month r))
  end.
End Crossing.

(** ** [src/phase2_viability_grid.py] *)

Module Grid.

Record Row := mkRow {
  row_t : Z;
  row_A : Q;
  row_m : Q;
  row_employees : Z;
  row_BC : Q;
  row_FS : Q;
  row_U : Q;
  row_p_eff : Q;
  row_impact : Q;
  row_fs_cov_before : coverage;
  row_fs_cov_after : coverage
}.

(** The local variables of the loop (the list [rows] apart). *)
Record Loc := mkLoc {
  A : Q;
  m : Q;
  employees : Z;
  BC : Q;
  FS : Q;
  hires : Z;
  last_hire_month : Z
}.

Definition init_loc (params : PZParams) (A0 m0 : Q) : Loc := {|
  A := A0; m := m0;
  employees := employees0 params;
  BC := 0; FS := 0;
  hires := 0%Z;
  last_hire_month := (-10000)%Z
|}.

(** One iteration: the new locals and the appended row. *)
Definition month_body (params : PZParams) (t : Z) (s : Loc)
  : option (Loc * Row) :=
  let rm := r_annual params / 12 in
  let costs := inject_Z (employees s) * cost_per_employee params
               + other_fixed_costs params in
  let revenue := A s * m s in
  let interest := rm * (BC s + FS s) in
  let U := revenue + interest - costs in
  let fs_cov := if Qltb 0 costs then Fin (FS s / costs) else PInf in
  let p_eff :=
    if Qleb 0 (p_override params) && Qleb (p_override params) 1
    then p_override params
    else if use_dynamic_p params
         then p_dynamic_from_fs fs_cov (p4_max params)
         else 0.30 in
  let p_eff := py_max 0 (py_min 1 p_eff) in
  let after (s' : Loc) (impact : Q) : option (Loc * Row) :=
    let costs_after := inject_Z (employees s') * cost_per_employee params
                       + other_fixed_costs params in
    let fs_cov_after :=
      if Qltb 0 costs_after then Fin (FS s' / costs_after) else PInf in
    Some (s', {|
      row_t := t; row_A := A s'; row_m := m s';
      row_employees := employees s';
      row_BC := BC s'; row_FS := FS s';
      row_U := U; row_p_eff := p_eff; row_impact := impact;
      row_fs_cov_before := fs_cov; row_fs_cov_after := fs_cov_after
    |}) in
  if Qltb 0 U then
    let BC_in := p_eff * U in
    let BPZ_in := (1 - p_eff) * U in
    let BC' := BC s + BC_in in
    let FS_in := fs_pct_of_bpz params * BPZ_in in
    let FS' := FS s + FS_in in
    let BPZ_rem := (1 - fs_pct_of_bpz params) * BPZ_in in
    let impact := impact_pct_of_bpz_rem params * BPZ_rem in
    let internal := internal_pct_of_bpz_rem params * BPZ_rem in
    let rd := rd_pct_of_internal params * internal in
    (* churn & acquisition *)
    let churn := churn_rate params * A s in
    let acq_baseline := acq_churn_ratio params * churn in
    i1 <- py_div impact (costs + 1) ;;
    let acq_boost := k_acq params * i1 in
    let acquisitions := acq_baseline + acq_boost in
    let A' := py_max 0 (A s + acquisitions - churn) in
    (* margin growth *)
    i2 <- py_div impact (costs + 1) ;;
    i3 <- py_div rd (costs + 1) ;;
    let g_m := km_margin params * i2 + krd_margin params * i3 in
    let g_m := py_min (max_margin_growth params) (py_max 0 g_m) in
    let m' := m s * (1 + g_m) in
    (* hiring *)
    let fs_ratio := fs_ratio_for_employees (employees s) in
    let fs_target := inject_Z fs_ratio * costs in
    let hire :=
      (hire_cooldown_months params <=? t - last_hire_month s)%Z
      && Qleb (hire_trigger_buffer params * fs_target) FS' in
    after {|
      A := A'; m := m';
      employees := if hire then (employees s + 1)%Z else employees s;
      BC := BC'; FS := FS';
      hires := if hire then (hires s + 1)%Z else hires s;
      last_hire_month := if hire then t else last_hire_month s
    |} impact
  else
    after s 0.

(** The loop; [rows.append] adds at the end. *)
Definition run_months (params : PZParams) (ts : list Z)
  (acc : option (Loc * list Row)) : option (Loc * list Row) :=
  fold_left
    (fun acc t =>
       '(s, rows) <- acc ;;
       '(s', r) <- month_body params t s ;;
       Some (s', rows ++ [r]))
    ts acc.

Definition run_path_until (months : Z) (params : PZParams) (A0 m0 : Q)
  : option (list Row) :=
  '(_, rows) <- run_months params (month_range months)
                  (Some (init_loc params A0 m0, [])) ;;
  Some rows.

Definition first_crossing_month : list Row -> Q -> option crossing :=
  first_crossing row_t row_fs_cov_after.

End Grid.

(** ** [dashboard/phase2_dashboard.py] *)

Module Dashboard.

Record Row := mkRow {
  row_month : Z;
  row_people : Q;
  row_margin_per_person : Q;
  row_employees : Z;
  row_monthly_costs : Q;
  row_revenue : Q;
  row_interest : Q;
  row_utility : Q;
  row_p_to_investment : Q;
  row_impact_spend : Q;
  row_rd_spend : Q;
  row_BC : Q;
  row_FS : Q;
  row_FS_coverage_months : coverage
}.

Record Loc := mkLoc {
  A : Q;
  m : Q;
  employees : Z;
  BC : Q;
  FS : Q;
  hires : Z;
  last_hire_month : Z
}.

Definition init_loc (params : PZParams) (A0 m0 BC0 FS0 : Q) : Loc := {|
  A := A0; m := m0;
  employees := employees0 params;
  BC := BC0; FS := FS0;
  hires := 0%Z;
  last_hire_month := (-10000)%Z
|}.

(** One iteration; [A0] and [m0] are the arguments of
    [run_path_until], read again every month for [rev0]. *)
Definition month_body (params : PZParams) (A0 m0 : Q) (t : Z) (s : Loc)
  : Loc * Row :=
  let rm := r_annual params / 12 in
  let costs := inject_Z (employees s) * cost_per_employee params
               + other_fixed_costs params in
  (* Revenue controlled by a fixed monthly growth rate *)
  let rev0 := A0 * m0 in
  let revenue := rev0 * (1 + rev_growth params) ^ (t - 1) in
  let interest := rm * (BC s + FS s) in
  let U := revenue + interest - costs in
  let fs_cov_before := if Qltb 0 costs then Fin (FS s / costs) else PInf in
  let p_eff :=
    if Qleb 0 (p_override params) && Qleb (p_override params) 1
    then p_override params
    else if use_dynamic_p params
         then p_dynamic_from_fs fs_cov_before (p4_max params)
         else 0.30 in
  let p_eff := py_max 0 (py_min 1 p_eff) in
  let after (s' : Loc) (impact rd : Q) : Loc * Row :=
    let costs_after := inject_Z (employees s') * cost_per_employee params
                       + other_fixed_costs params in
    let fs_cov_after :=
      if Qltb 0 costs_after then Fin (FS s' / costs_after) else PInf in
    (s', {|
      row_month := t;
      row_people := A s';
      row_margin_per_person := m s';
      row_employees := employees s';
      row_monthly_costs := costs_after;
      row_revenue := revenue;
      row_interest := interest;
      row_utility := U;
      row_p_to_investment := p_eff;
      row_impact_spend := impact;
      row_rd_spend := rd;
      row_BC := BC s';
      row_FS := FS s';
      row_FS_coverage_months := fs_cov_after
    |}) in
  if Qltb 0 U then
    let BC_in := p_eff * U in
    let BPZ_in := (1 - p_eff) * U in
    let BC' := BC s + BC_in in
    let FS_in := fs_pct_of_bpz params * BPZ_in in
    let FS' := FS s + FS_in in
    let BPZ_rem := (1 - fs_pct_of_bpz params) * BPZ_in in
    let impact := impact_pct_of_bpz_rem params * BPZ_rem in
    let internal := internal_pct_of_bpz_rem params * BPZ_rem in
    let rd := rd_pct_of_internal params * internal in
    (* revenue growth is exogenous: [A = A], [m = m] *)
    let fs_ratio := fs_ratio_for_employees (employees s) in
    let fs_target := inject_Z fs_ratio * costs in
    let hire :=
      (hire_cooldown_months params <=? t - last_hire_month s)%Z
      && Qleb (hire_trigger_buffer params * fs_target) FS' in
    after {|
      A := A s; m := m s;
      employees := if hire then (employees s + 1)%Z else employees s;
      BC := BC'; FS := FS';
      hires := if hire then (hires s + 1)%Z else hires s;
      last_hire_month := if hire then t else last_hire_month s
    |} impact rd
  else
    after s 0 0.

Definition run_months (params : PZParams) (A0 m0 : Q) (ts : list Z)
  (acc : Loc * list Row) : Loc * list Row :=
  fold_left
    (fun '(s, rows) t =>
       let '(s', r) := month_body params A0 m0 t s in
       (s', rows ++ [r]))
    ts acc.

Definition run_path_until (months : Z) (params : PZParams)
  (A0 m0 BC0 FS0 : Q) : list Row :=
  snd (run_months params A0 m0 (month_range months)
         (init_loc params A0 m0 BC0 FS0, [])).

Definition first_crossing_month : list Row -> Q -> option crossing :=
  first_crossing row_month row_FS_coverage_months.

End Dashboard.

(** ** Observations on a run *)

(** The quantities a month computes from the state it starts in. *)
Definition month_costs (params : PZParams) (s : State) : Q :=
  inject_Z (employees s) * cost_per_employee params + other_fixed_costs params.

Definition month_revenue (s : State) : Q := A s * m s.

Definition month_interest (params : PZParams) (s : State) : Q :=
  r_monthly (r_annual params) * (BC s + FS s).

Definition month_U (params : PZParams) (s : State) : Q :=
  month_revenue s + month_interest params s - month_costs params s.

(** The coverage that governance observes: before allocation. *)
Definition month_coverage (params : PZParams) (s : State) : coverage :=
  fs_coverage (FS s) (month_costs params s).

(** The hiring threshold of the month, [hire_trigger_buffer * fs_target]. *)
Definition hire_threshold (params : PZParams) (s : State) : Q :=
  hire_trigger_buffer params
  * (inject_Z (fs_ratio_for_employees (employees s)) * month_costs params s).

(** Month [t] of the run hired: the head count went up by one in it. *)
Definition hire_at (params : PZParams) (p_to_bc B0 FS0 : Q) (t : nat) : Prop :=
  exists s s',
    (1 <= t)%nat /\
    state_after params p_to_bc B0 FS0 (pred t) = Some s /\
    state_after params p_to_bc B0 FS0 t = Some s' /\
    employees s' = (employees s + 1)%Z.

(** [dataclasses.replace(params, p_override=v)] and the like. *)
Definition set_p_override (v : Q) (params : PZParams) : PZParams :=
  mkPZParams (r_annual params) (A0 params) (m0 params) (employees0 params)
    (cost_per_employee params) (other_fixed_costs params)
    (fs_pct_of_bpz params) (impact_pct_of_bpz_rem params)
    (internal_pct_of_bpz_rem params) (rd_pct_of_internal params)
    (wellbeing_pct_of_internal params) (legal_pct_of_internal params)
    (churn_rate params) (acq_churn_ratio params) (k_acq params)
    (km_margin params) (krd_margin params) (max_margin_growth params)
    (hire_cooldown_months params) (hire_trigger_buffer params)
    (use_dynamic_p params) v (p4_max params) (rev_growth params).

Definition set_rev_growth (v : Q) (params : PZParams) : PZParams :=
  mkPZParams (r_annual params) (A0 params) (m0 params) (employees0 params)
    (cost_per_employee params) (other_fixed_costs params)
    (fs_pct_of_bpz params) (impact_pct_of_bpz_rem params)
    (internal_pct_of_bpz_rem params) (rd_pct_of_internal params)
    (wellbeing_pct_of_internal params) (legal_pct_of_internal params)
    (churn_rate params) (acq_churn_ratio params) (k_acq params)
    (km_margin params) (krd_margin params) (max_margin_growth params)
    (hire_cooldown_months params) (hire_trigger_buffer params)
    (use_dynamic_p params) (p_override params) (p4_max params) v.

(** ** Continuity at a phase boundary *)

(** [f] tends to [L] as its argument approaches [b] from below. *)
Definition left_limit (f : Q -> Q) (b L : Q) : Prop :=
  forall eps, 0 < eps ->
    exists delta, 0 < delta /\
      forall c, b - delta < c -> c < b -> Qabs (f c - L) < eps.

(** The point at position [lam] of the range of the phase that the
    coverage [fs_cov] falls in. *)
Definition phase_value (fs_cov : coverage) (p4_max lam : Q) : Q :=
  let '(pmin, pmax, _, _) := p_bounds_by_fs fs_cov p4_max in
  pmin + lam * (pmax - pmin).

(** The share, the flows and the hiring decision of a month with
    positive utility, from the state the month starts in. *)
Definition month_p_eff (params : PZParams) (p_to_bc : Q) (s : State) : Q :=
  effective_p params p_to_bc (month_coverage params s).

Definition month_BC_in (params : PZParams) (p_to_bc : Q) (s : State) : Q :=
  month_p_eff params p_to_bc s * month_U params s.

Definition month_BPZ_in (params : PZParams) (p_to_bc : Q) (s : State) : Q :=
  (1 - month_p_eff params p_to_bc s) * month_U params s.

Definition month_FS_in (params : PZParams) (p_to_bc : Q) (s : State) : Q :=
  fs_pct_of_bpz params * month_BPZ_in params p_to_bc s.

Definition month_impact (params : PZParams) (p_to_bc : Q) (s : State) : Q :=
  impact_pct_of_bpz_rem params
  * ((1 - fs_pct_of_bpz params) * month_BPZ_in params p_to_bc s).

Definition month_hires (params : PZParams) (p_to_bc : Q) (t : Z) (s : State)
  : bool :=
  (hire_cooldown_months params <=? t - last_hire_month s)%Z
  && Qleb (hire_threshold params s) (FS s + month_FS_in params p_to_bc s).

(** ** Concrete configurations *)

(** The defaults with nobody to serve: no revenue, so every month loses
    the 2000 of costs. *)
Definition no_revenue_params : PZParams := {|
  r_annual := 0.04;
  A0 := 0; m0 := 25; employees0 := 2%Z;
  cost_per_employee := 1000; other_fixed_costs := 0;
  fs_pct_of_bpz := 0.30;
  impact_pct_of_bpz_rem := 0.60; internal_pct_of_bpz_rem := 0.40;
  rd_pct_of_internal := 0.60; wellbeing_pct_of_internal := 0.25;
  legal_pct_of_internal := 0.15;
  churn_rate := 0.03; acq_churn_ratio := 1; k_acq := 0.20;
  km_margin := 0.010; krd_margin := 0.006; max_margin_growth := 0.03;
  hire_cooldown_months := 3%Z; hire_trigger_buffer := 1.20;
  use_dynamic_p := true; p_override := -1; p4_max := 0.70;
  rev_growth := 0
|}.

(** An override value [v] that the simulator handles exactly as it
    handles the sentinel [-1]. *)
Definition treated_as_no_override (v : Q) : Prop :=
  forall params p_to_bc t s,
    month_body (set_p_override v params) p_to_bc t s =
    month_body (set_p_override (-1) params) p_to_bc t s.

(** ** Well-formed inputs *)

(** Every ratio field lies in [0,1] and the monetary inputs (initial
    balances, costs, margin, population) are not negative. *)
Definition well_formed (params : PZParams) (B0 FS0 : Q) : Prop :=
  (0 <= fs_pct_of_bpz params <= 1) /\
  (0 <= impact_pct_of_bpz_rem params <= 1) /\
  (0 <= internal_pct_of_bpz_rem params <= 1) /\
  (0 <= rd_pct_of_internal params <= 1) /\
  (0 <= wellbeing_pct_of_internal params <= 1) /\
  (0 <= legal_pct_of_internal params <= 1) /\
  0 <= B0 /\ 0 <= FS0 /\
  0 <= cost_per_employee params /\ 0 <= other_fixed_costs params /\
  0 <= m0 params /\ 0 <= A0 params.

(** Month [t] of the run has positive utility and a post-allocation FS
    that reaches [hire_trigger_buffer * fs_target]. *)
Definition hire_conditions_met (params : PZParams) (p_to_bc B0 FS0 : Q)
  (t : nat) : Prop :=
  exists s s',
    (1 <= t)%nat /\
    state_after params p_to_bc B0 FS0 (pred t) = Some s /\
    state_after params p_to_bc B0 FS0 t = Some s' /\
    0 < month_U params s /\
    hire_threshold params s <= FS s'.

(** A configuration that hires as soon as the cooldown allows: the
    trigger buffer is 0, revenue is 10000 a month against costs of a
    few thousand, and nothing grows. *)
Definition eager_hiring_params : PZParams := {|
  r_annual := 0;
  A0 := 100; m0 := 100; employees0 := 2%Z;
  cost_per_employee := 1000; other_fixed_costs := 0;
  fs_pct_of_bpz := 0.30;
  impact_pct_of_bpz_rem := 0.60; internal_pct_of_bpz_rem := 0.40;
  rd_pct_of_internal := 0.60; wellbeing_pct_of_internal := 0.25;
  legal_pct_of_internal := 0.15;
  churn_rate := 0; acq_churn_ratio := 1; k_acq := 0;
  km_margin := 0; krd_margin := 0; max_margin_growth := 0.03;
  hire_cooldown_months := 3%Z; hire_trigger_buffer := 0;
  use_dynamic_p := false; p_override := 0.5; p4_max := 0.70;
  rev_growth := 0
|}.

(** A configuration whose exogenous growth rate is +100% a month while
    nothing grows organically ([k_acq], [km_margin], [krd_margin] and
    the churn are 0) and no interest accrues. *)
Definition doubling_revenue_params : PZParams := {|
  r_annual := 0;
  A0 := 100; m0 := 25; employees0 := 2%Z;
  cost_per_employee := 1000; other_fixed_costs := 0;
  fs_pct_of_bpz := 0.30;
  impact_pct_of_bpz_rem := 0.60; internal_pct_of_bpz_rem := 0.40;
  rd_pct_of_internal := 0.60; wellbeing_pct_of_internal := 0.25;
  legal_pct_of_internal := 0.15;
  churn_rate := 0; acq_churn_ratio := 1; k_acq := 0;
  km_margin := 0; krd_margin := 0; max_margin_growth := 0.03;
  hire_cooldown_months := 3%Z; hire_trigger_buffer := 1.20;
  use_dynamic_p := true; p_override := -1; p4_max := 0.70;
  rev_growth := 1
|}.

(** ** Comparing the extraction modes *)




(** ** The first row at or above a threshold *)

(** The position of the first coverage at or above the threshold. *)
Fixpoint first_hit (covs : list coverage) (threshold : Q) : option nat :=
  match covs with
  | [] => None
  | c :: cs =>
      if cov_geb c threshold then Some 0%nat
      else option_map S (first_hit cs threshold)
  end.

(** ** An accessor of the policy tuple *)

(** The phase that [p_bounds_by_fs] reports. *)
Definition phase_of (fs_cov : coverage) (p4_max : Q) : Z :=
  let '(_, _, phase, _) := p_bounds_by_fs fs_cov p4_max in phase.

(** The R&D spending and the growth rate of the margin in a month with
    positive utility, from the state the month starts in. *)
Definition month_rd (params : PZParams) (p_to_bc : Q) (s : State) : Q :=
  rd_pct_of_internal params
  * (internal_pct_of_bpz_rem params
     * ((1 - fs_pct_of_bpz params) * month_BPZ_in params p_to_bc s)).

Definition month_g_m (params : PZParams) (p_to_bc : Q) (s : State) : Q :=
  py_min (max_margin_growth params)
    (py_max 0
       (km_margin params
        * (month_impact params p_to_bc s / (month_costs params s + 1))
        + krd_margin params
          * (month_rd params p_to_bc s / (month_costs params s + 1)))).

(** The population after a month with positive utility. *)
Definition month_A_next (params : PZParams) (p_to_bc : Q) (s : State) : Q :=
  py_max 0
    (A s
     + (acq_churn_ratio params * (churn_rate params * A s)
        + k_acq params
          * (month_impact params p_to_bc s / (month_costs params s + 1)))
     - churn_rate params * A s).

(** The bookkeeping of a run: head count and hires move together, a
    hire takes a month with positive utility, and the last share and
    phase are set exactly once such a month has happened. *)
Definition counters_ok (params : PZParams) (k : nat) (s : State) : Prop :=
  employees s = (employees0 params + hires s)%Z /\
  (0 <= hires s <= months_u_pos s)%Z /\
  (months_u_pos s <= Z.of_nat k)%Z /\
  ((months_u_pos s = 0%Z /\ last_p_eff s = None /\ last_phase s = None) \/
   ((0 < months_u_pos s)%Z /\
    exists p ph, last_p_eff s = Some p /\ 0 <= p <= 1 /\
                 last_phase s = Some ph /\ (1 <= ph <= 4)%Z)).

(** ** [cached_run] of the dashboard *)

(** The trajectory, the three crossing months and the summary of one
    scenario.  The dictionary [params_dict] is given as the [PZParams]
    that the first line builds from it.  [None] is an
    exception: the [KeyError] of the query or the [ZeroDivisionError]
    of [simulate_pz]. *)
Definition cached_run (horizon : Z) (params : PZParams) (A0 m0 BC0 FS0 : Q)
  : option (list Dashboard.Row * crossing * crossing * crossing * Summary) :=
  let traj := Dashboard.run_path_until horizon params A0 m0 BC0 FS0 in
  t3 <- Dashboard.first_crossing_month traj 3 ;;
  t6 <- Dashboard.first_crossing_month traj 6 ;;
  t12 <- Dashboard.first_crossing_month traj 12 ;;
  summary <- simulate_pz horizon 0.30 params BC0 FS0 ;;
  Some (traj, t3, t6, t12, summary).

(** ** One point of the viability grid ([main] of the grid script) *)

(** [replace(base, A0=float(A0), m0=float(m0))] *)
Definition set_A0_m0 (a mg : Q) (params : PZParams) : PZParams :=
  mkPZParams (r_annual params) a mg (employees0 params)
    (cost_per_employee params) (other_fixed_costs params)
    (fs_pct_of_bpz params) (impact_pct_of_bpz_rem params)
    (internal_pct_of_bpz_rem params) (rd_pct_of_internal params)
    (wellbeing_pct_of_internal params) (legal_pct_of_internal params)
    (churn_rate params) (acq_churn_ratio params) (k_acq params)
    (km_margin params) (krd_margin params) (max_margin_growth params)
    (hire_cooldown_months params) (hire_trigger_buffer params)
    (use_dynamic_p params) (p_override params) (p4_max params)
    (rev_growth params).

(** [np.isnan] on the answer of the grid script's query. *)
Definition isnan (c : crossing) : bool :=
  match c with
  | NotReached => true
  | Reached _ => false
  end.

(** The row that [main] appends for one horizon and one pair
    [(A0, m0)]. *)
Record GridPoint := mkGridPoint {
  gp_horizon : Z;
  gp_A0 : Q;
  gp_m0 : Q;
  time_to_fs3 : crossing;
  time_to_fs6 : crossing;
  time_to_fs12 : crossing;
  viable_fs3 : Z;
  viable_fs6 : Z;
  viable_fs12 : Z;
  gp_impact_cum_end : Q;
  gp_FS_end : Q;
  gp_BC_end : Q;
  gp_employees_end : Z;
  gp_pct_months_U_pos : Q;
  gp_avg_U : Q;
  gp_A_end : Q;
  gp_m_end : Q;
  gp_p_eff_last : option Q;
  gp_phase_final : Z;
  gp_fs_cov_final : coverage
}.

(** The body of the innermost loop of [main]; [None] is an exception
    of one of the calls. *)
Definition grid_point (base : PZParams) (H : Z) (a mg : Q)
  : option GridPoint :=
  let params := set_A0_m0 a mg base in
  traj <- Grid.run_path_until H params a mg ;;
  t_fs3 <- Grid.first_crossing_month traj 3 ;;
  t_fs6 <- Grid.first_crossing_month traj 6 ;;
  t_fs12 <- Grid.first_crossing_month traj 12 ;;
  summary <- simulate_pz H 0.30 params 0 0 ;;
  let pos_ok := Qleb 0.70 (pct_months_U_pos summary) in
  let viable_3 := negb (isnan t_fs3) && pos_ok in
  let viable_6 := negb (isnan t_fs6) && pos_ok in
  let viable_12 := negb (isnan t_fs12) && pos_ok in
  Some {|
    gp_horizon := H;
    gp_A0 := a;
    gp_m0 := mg;
    time_to_fs3 := t_fs3;
    time_to_fs6 := t_fs6;
    time_to_fs12 := t_fs12;
    viable_fs3 := Z.b2z viable_3;
    viable_fs6 := Z.b2z viable_6;
    viable_fs12 := Z.b2z viable_12;
    gp_impact_cum_end := impact_cum_end summary;
    gp_FS_end := FS_end summary;
    gp_BC_end := BC_end summary;
    gp_employees_end := employees_end summary;
    gp_pct_months_U_pos := pct_months_U_pos summary;
    gp_avg_U := avg_U summary;
    gp_A_end := A_end summary;
    gp_m_end := m_end summary;
    gp_p_eff_last := p_eff_last summary;
    gp_phase_final := phase_final summary;
    gp_fs_cov_final := fs_coverage_months_final summary
  |}.

(** ** [src/common.py] and [run_sweep] of [src/phase1_sweep.py] *)

Module Phase1.

Record ModelParams := mkModelParams {
  A0 : Z;                 (* active people (constant in Phase 1) *)
  C_base : Q;             (* monthly base costs *)
  r_annual : Q;           (* annual bond rate *)
  B0 : Q;                 (* initial bond capital *)
  alphas : list Q;        (* policy sweep *)
  margins : list Q;       (* margins to test *)
  horizons : list Z       (* horizons in months *)
}.

Definition default_model : ModelParams := {|
  A0 := 100%Z; C_base := 2000; r_annual := 0.04; B0 := 0;
  alphas := [0.90; 0.80; 0.70; 0.60; 0.50];
  margins := [10; 15; 20; 25; 30; 40; 50];
  horizons := [6; 12; 18; 24; 60; 120]%Z
|}.

Definition r_monthly (r : Q) : Q := r / 12.

(** The local variables of the loop of [simulate_phase1]. *)
Record State := mkState {
  bond_capital : Q;
  impact_cum : Q;
  months_positive_u : Z;
  first_impact_month : option Z;
  u_sum : Q;
  u_positive_sum : Q
}.

Definition init_state (B0 : Q) : State := {|
  bond_capital := B0;
  impact_cum := 0;
  months_positive_u := 0%Z;
  first_impact_month := None;
  u_sum := 0;
  u_positive_sum := 0
|}.

(** One iteration of [for t in range(1, months + 1)]. *)
Definition month_body (A0 : Z) (C_base r_annual alpha margin_per_person : Q)
  (t : Z) (s : State) : State :=
  let rm := r_monthly r_annual in
  let revenue := inject_Z A0 * margin_per_person in
  let interest := rm * bond_capital s in
  let u := revenue + interest - C_base in
  let u_sum' := u_sum s + u in
  if Qltb 0 u then
    let reinvest := alpha * u in
    let impact := (1 - alpha) * u in
    {|
      bond_capital := bond_capital s + reinvest;
      impact_cum := impact_cum s + impact;
      months_positive_u := (months_positive_u s + 1)%Z;
      first_impact_month :=
        match first_impact_month s with
        | None => if Qltb 0 impact then Some t else None
        | Some t0 => Some t0
        end;
      u_sum := u_sum';
      u_positive_sum := u_positive_sum s + u
    |}
  else
    (* conservative freeze (no reinvest, no impact) *)
    {|
      bond_capital := bond_capital s;
      impact_cum := impact_cum s;
      months_positive_u := months_positive_u s;
      first_impact_month := first_impact_month s;
      u_sum := u_sum';
      u_positive_sum := u_positive_sum s
    |}.

(** The returned dictionary. *)
Record Summary := mkSummary {
  months_out : Z;
  A0_out : Z;
  C_base_out : Q;
  r_annual_out : Q;
  alpha_out : Q;
  margin_per_person_out : Q;
  bond_capital_end : Q;
  impact_cum_out : Q;
  months_positive_u_out : Z;
  pct_months_positive_u : Q;
  first_impact_month_out : option Z;     (* [None] is NaN *)
  avg_u : Q;
  avg_u_positive : Q
}.

Definition run_months (A0 : Z) (C_base r_annual alpha margin_per_person : Q)
  (ts : list Z) (s : State) : State :=
  fold_left
    (fun s t => month_body A0 C_base r_annual alpha margin_per_person t s)
    ts s.

Definition simulate_phase1 (months : Z) (A0 : Z)
  (C_base r_annual alpha margin_per_person B0 : Q) : Summary :=
  let s := run_months A0 C_base r_annual alpha margin_per_person
             (month_range months) (init_state B0) in
  {|
    months_out := months;
    A0_out := A0;
    C_base_out := C_base;
    r_annual_out := r_annual;
    alpha_out := alpha;
    margin_per_person_out := margin_per_person;
    bond_capital_end := bond_capital s;
    impact_cum_out := impact_cum s;
    months_positive_u_out := months_positive_u s;
    pct_months_positive_u :=
      if (0 <? months)%Z
      then inject_Z (months_positive_u s) / inject_Z months else 0;
    first_impact_month_out := first_impact_month s;
    avg_u := if (0 <? months)%Z then u_sum s / inject_Z months else 0;
    avg_u_positive :=
      if (0 <? months_positive_u s)%Z
      then u_positive_sum s / inject_Z (months_positive_u s) else 0
  |}.

(** [run_sweep]: the three nested loops, each [rows.append] adding at
    the end. *)
Definition run_sweep (params : ModelParams) : list Summary :=
  fold_left
    (fun rows H =>
       fold_left
         (fun rows mg =>
            fold_left
              (fun rows a =>
                 rows ++ [simulate_phase1 H (A0 params) (C_base params)
                            (r_annual params) a mg (B0 params)])
              (alphas params) rows)
         (margins params) rows)
    (horizons params) [].

End Phase1.

(** ** [src/phase2_p_sweep.py] *)

(** [replace(params, use_dynamic_p=...)] *)
Definition set_use_dynamic_p (b : bool) (params : PZParams) : PZParams :=
  mkPZParams (r_annual params) (A0 params) (m0 params) (employees0 params)
    (cost_per_employee params) (other_fixed_costs params)
    (fs_pct_of_bpz params) (impact_pct_of_bpz_rem params)
    (internal_pct_of_bpz_rem params) (rd_pct_of_internal params)
    (wellbeing_pct_of_internal params) (legal_pct_of_internal params)
    (churn_rate params) (acq_churn_ratio params) (k_acq params)
    (km_margin params) (krd_margin params) (max_margin_growth params)
    (hire_cooldown_months params) (hire_trigger_buffer params)
    b (p_override params) (p4_max params) (rev_growth params).

(** The value of the column [policy] that the two functions insert:
    the strings "AUTO_p=f(FS)" and "OVERRIDE_fixed_p". *)
Inductive policy : Type :=
| AUTO_p
| OVERRIDE_fixed_p.

(** [rows.append(simulate_pz(...))] inside a loop: an exception of the
    call ends the function. *)
Definition append_run (acc : option (list Summary)) (r : option Summary)
  : option (list Summary) :=
  rows <- acc ;; sm <- r ;; Some (rows ++ [sm]).

Definition run_auto (params : PZParams) (horizons : list Z)
  : option (list (policy * Summary)) :=
  rows <- fold_left
            (fun acc H =>
               let params_auto :=
                 set_p_override (-1) (set_use_dynamic_p true params) in
               append_run acc (simulate_pz H 0.30 params_auto 0 0))
            horizons (Some []) ;;
  Some (map (fun sm => (AUTO_p, sm)) rows).

Definition run_override_sweep (params : PZParams) (horizons : list Z)
  (p_values : list Q) : option (list (policy * Summary)) :=
  rows <- fold_left
            (fun acc H =>
               fold_left
                 (fun acc p =>
                    (* override always wins, even if use_dynamic_p=True *)
                    let params_over :=
                      set_p_override p (set_use_dynamic_p true params) in
                    append_run acc (simulate_pz H p params_over 0 0))
                 p_values acc)
            horizons (Some []) ;;
  Some (map (fun sm => (OVERRIDE_fixed_p, sm)) rows).

(** A list of head counts that starts from [e] and goes from each
    entry to the next by staying or by adding one. *)
Fixpoint steps_from (e : Z) (es : list Z) : Prop :=
  match es with
  | [] => True
  | x :: tl => (e <= x <= e + 1)%Z /\ steps_from x tl
  end.

(** ** The same code over binary64 floats

    [simulate_pz] once more, this time with Python's [float] as the
    IEEE 754 binary64 numbers themselves: sums, differences and
    products round and overflow to an infinity, [inf - inf] and
    [0 * inf] are NaN, comparisons with NaN are false, a division by
    zero raises [ZeroDivisionError] and the conversion of an [int]
    beyond the float range raises [OverflowError].  This model
    evaluates the program where the exact model above cannot follow
    it: outside the finite range of the floats. *)

Module Float64.

Local Open Scope float_scope.
#[local] Set Warnings "-inexact-float".

Inductive exn : Type :=
| ZeroDivisionError
| OverflowError.

Inductive result (X : Type) : Type :=
| Ok (x : X)
| Raise (e : exn).
Arguments Ok {X} x.
Arguments Raise {X} e.

Notation "x <-- c ;; k" :=
  (match c with Ok x => k | Raise e => Raise e end)
  (at level 61, c at next level, right associativity).

(** [float(n)] for an [int], and the conversion of the [int] operand
    of a mixed operation: the nearest float, [OverflowError] when
    that would be infinite. *)
Definition float_of_int (n : Z) : result float :=
  let f := SF2Prim (binary_normalize prec emax n 0 false) in
  if PrimFloat.is_infinity f then Raise OverflowError else Ok f.

(** [x / y] *)
Definition py_div (x y : float) : result float :=
  if y =? 0.0 then Raise ZeroDivisionError else Ok (x / y).

(** [min(a, b)], [max(a, b)] and [clamp] *)
Definition py_min (a b : float) : float := if b <? a then b else a.
Definition py_max (a b : float) : float := if a <? b then b else a.
Definition clamp (x lo hi : float) : float := py_max lo (py_min hi x).

Record PZParams := mkPZParams {
  r_annual : float;
  A0 : float;
  m0 : float;
  employees0 : Z;
  cost_per_employee : float;
  other_fixed_costs : float;
  fs_pct_of_bpz : float;
  impact_pct_of_bpz_rem : float;
  internal_pct_of_bpz_rem : float;
  rd_pct_of_internal : float;
  wellbeing_pct_of_internal : float;
  legal_pct_of_internal : float;
  churn_rate : float;
  acq_churn_ratio : float;
  k_acq : float;
  km_margin : float;
  krd_margin : float;
  max_margin_growth : float;
  hire_cooldown_months : Z;
  hire_trigger_buffer : float;
  use_dynamic_p : bool;
  p_override : float;
  p4_max : float;
  rev_growth : float
}.

Definition default_params : PZParams := {|
  r_annual := 0.04;
  A0 := 100.0; m0 := 25.0; employees0 := 2%Z;
  cost_per_employee := 1000.0; other_fixed_costs := 0.0;
  fs_pct_of_bpz := 0.30;
  impact_pct_of_bpz_rem := 0.60; internal_pct_of_bpz_rem := 0.40;
  rd_pct_of_internal := 0.60; wellbeing_pct_of_internal := 0.25;
  legal_pct_of_internal := 0.15;
  churn_rate := 0.03; acq_churn_ratio := 1.00; k_acq := 0.20;
  km_margin := 0.010; krd_margin := 0.006; max_margin_growth := 0.03;
  hire_cooldown_months := 3%Z; hire_trigger_buffer := 1.20;
  use_dynamic_p := true; p_override := -1.0; p4_max := 0.70;
  rev_growth := 0.0
|}.

Definition r_monthly (r : float) : float := r / 12.0.

Definition p_bounds_by_fs (fs_cov p4_max : float)
  : float * float * Z * float :=
  let '(pmin, pmax, lam, phase) :=
    if fs_cov <? 3.0 then (0.05, 0.15, fs_cov / 3.0, 1%Z)
    else if fs_cov <? 6.0 then (0.20, 0.35, (fs_cov - 3.0) / 3.0, 2%Z)
    else if fs_cov <? 12.0 then (0.30, 0.50, (fs_cov - 6.0) / 6.0, 3%Z)
    else (0.40, p4_max, (fs_cov - 12.0) / 12.0, 4%Z) in
  let lam := clamp lam 0.0 1.0 in
  (pmin, pmax, phase, lam).

Definition p_dynamic_from_fs (fs_cov p4_max : float) : float :=
  let '(pmin, pmax, _, lam) := p_bounds_by_fs fs_cov p4_max in
  pmin + lam * (pmax - pmin).

(** The local variables of the loop. *)
Record State := mkState {
  A : float;
  m : float;
  employees : Z;
  BC : float;
  FS : float;
  impact_cum : float;
  months_u_pos : Z;
  first_impact_month : option Z;
  u_sum : float;
  hires : Z;
  last_hire_month : Z;
  last_p_eff : float;
  last_phase : float
}.

Definition init_state (params : PZParams) (B0 FS0 : float) : State := {|
  A := A0 params;
  m := m0 params;
  employees := employees0 params;
  BC := B0;
  FS := FS0;
  impact_cum := 0.0;
  months_u_pos := 0%Z;
  first_impact_month := None;
  u_sum := 0.0;
  hires := 0%Z;
  last_hire_month := (-10000)%Z;
  last_p_eff := nan;
  last_phase := nan
|}.

(** [employees * params.cost_per_employee + params.other_fixed_costs] *)
Definition costs_of (params : PZParams) (employees : Z) : result float :=
  e <-- float_of_int employees ;;
  Ok (e * cost_per_employee params + other_fixed_costs params).

(** One iteration of [for t in range(1, months + 1)]. *)
Definition month_body (params : PZParams) (p_to_bc : float) (t : Z)
  (s : State) : result State :=
  let rm := r_monthly (r_annual params) in
  costs <-- costs_of params (employees s) ;;
  let revenue := A s * m s in
  let interest := rm * (BC s + FS s) in
  let U := revenue + interest - costs in
  let u_sum' := u_sum s + U in
  if 0.0 <? U then
    let months_u_pos' := (months_u_pos s + 1)%Z in
    fs_cov <-- (if 0.0 <? costs then py_div (FS s) costs else Ok infinity) ;;
    let p_eff :=
      if (0.0 <=? p_override params) && (p_override params <=? 1.0)
      then p_override params
      else if use_dynamic_p params
           then p_dynamic_from_fs fs_cov (p4_max params)
           else p_to_bc in
    let p_eff := clamp p_eff 0.0 1.0 in
    let '(_, _, phase_id, _) := p_bounds_by_fs fs_cov (p4_max params) in
    last_phase' <-- float_of_int phase_id ;;
    (* Split *)
    let BC_in := p_eff * U in
    let BPZ_in := (1.0 - p_eff) * U in
    let BC' := BC s + BC_in in
    (* BPZ allocation *)
    let FS_in := fs_pct_of_bpz params * BPZ_in in
    let FS' := FS s + FS_in in
    let BPZ_rem := (1.0 - fs_pct_of_bpz params) * BPZ_in in
    let impact := impact_pct_of_bpz_rem params * BPZ_rem in
    let internal := internal_pct_of_bpz_rem params * BPZ_rem in
    let rd := rd_pct_of_internal params * internal in
    let impact_cum' := impact_cum s + impact in
    let first_impact_month' :=
      match first_impact_month s with
      | None => if 0.0 <? impact then Some t else None
      | Some t0 => Some t0
      end in
    (* growth *)
    let intensity_den := costs + 1.0 in
    let churn := churn_rate params * A s in
    let acq_baseline := acq_churn_ratio params * churn in
    i1 <-- py_div impact intensity_den ;;
    let acq_boost := k_acq params * i1 in
    let acquisitions := acq_baseline + acq_boost in
    let A' := py_max 0.0 (A s + acquisitions - churn) in
    i2 <-- py_div impact intensity_den ;;
    i3 <-- py_div rd intensity_den ;;
    let g_m := km_margin params * i2 + krd_margin params * i3 in
    let g_m := py_min (max_margin_growth params) (py_max 0.0 g_m) in
    let m' := m s * (1.0 + g_m) in
    (* hiring decision (post-allocation FS) *)
    fs_ratio <-- float_of_int (fs_ratio_for_employees (employees s)) ;;
    let fs_target := fs_ratio * costs in
    let hire :=
      (hire_cooldown_months params <=? t - last_hire_month s)%Z
      && (hire_trigger_buffer params * fs_target <=? FS') in
    Ok {|
      A := A'; m := m';
      employees := if hire then (employees s + 1)%Z else employees s;
      BC := BC'; FS := FS';
      impact_cum := impact_cum';
      months_u_pos := months_u_pos';
      first_impact_month := first_impact_month';
      u_sum := u_sum';
      hires := if hire then (hires s + 1)%Z else hires s;
      last_hire_month := if hire then t else last_hire_month s;
      last_p_eff := p_eff;
      last_phase := last_phase'
    |}
  else
    (* conservative freeze *)
    Ok {|
      A := A s; m := m s; employees := employees s;
      BC := BC s; FS := FS s;
      impact_cum := impact_cum s;
      months_u_pos := months_u_pos s;
      first_impact_month := first_impact_month s;
      u_sum := u_sum';
      hires := hires s;
      last_hire_month := last_hire_month s;
      last_p_eff := last_p_eff s;
      last_phase := last_phase s
    |}.

Definition run_months (params : PZParams) (p_to_bc : float)
  (ts : list Z) (s : result State) : result State :=
  fold_left (fun acc t => s0 <-- acc ;; month_body params p_to_bc t s0) ts s.

(** The returned dictionary. *)
Record Summary := mkSummary {
  months_out : Z;
  p_to_bc_input : float;
  p_eff_last : float;
  phase_last : float;
  impact_cum_end : float;
  BC_end : float;
  FS_end : float;
  employees_end : Z;
  hires_total : Z;
  A_end : float;
  m_end : float;
  avg_U : float;
  pct_months_U_pos : float;
  first_impact_month_out : float;
  fs_ratio_final : float;
  fs_target_final : float;
  fs_coverage_months_final : float;
  p_range_min_final : float;
  p_range_max_final : float;
  p_dyn_final : float;
  phase_final : float;
  lambda_in_phase_final : float
}.

(** The code after the loop.  [months_u_pos / months] divides two
    [int]s; both are far below 2^53, so that the quotient of their
    conversions is the correctly rounded quotient Python returns. *)
Definition summarize (months : Z) (p_to_bc : float) (params : PZParams)
  (s : State) : result Summary :=
  pct_u_pos <-- (if (0 <? months)%Z
                 then a <-- float_of_int (months_u_pos s) ;;
                      b <-- float_of_int months ;;
                      py_div a b
                 else Ok 0.0) ;;
  final_costs <-- costs_of params (employees s) ;;
  let fs_ratio_final := fs_ratio_for_employees (employees s) in
  fs_ratio_f <-- float_of_int fs_ratio_final ;;
  let fs_target_final := fs_ratio_f * final_costs in
  fs_cov_final <-- (if 0.0 <? final_costs then py_div (FS s) final_costs
                    else Ok infinity) ;;
  let '(pmin_f, pmax_f, phase_f, lam_f) :=
    p_bounds_by_fs fs_cov_final (p4_max params) in
  let p_dyn_final := p_dynamic_from_fs fs_cov_final (p4_max params) in
  avg <-- (if (0 <? months)%Z
           then b <-- float_of_int months ;; py_div (u_sum s) b
           else Ok 0.0) ;;
  first_f <-- match first_impact_month s with
              | Some t => float_of_int t
              | None => Ok nan
              end ;;
  phase_ff <-- float_of_int phase_f ;;
  Ok {|
    months_out := months;
    p_to_bc_input := p_to_bc;
    p_eff_last := last_p_eff s;
    phase_last := last_phase s;
    impact_cum_end := impact_cum s;
    BC_end := BC s;
    FS_end := FS s;
    employees_end := employees s;
    hires_total := hires s;
    A_end := A s;
    m_end := m s;
    avg_U := avg;
    pct_months_U_pos := pct_u_pos;
    first_impact_month_out := first_f;
    fs_ratio_final := fs_ratio_f;
    fs_target_final := fs_target_final;
    fs_coverage_months_final := fs_cov_final;
    p_range_min_final := pmin_f;
    p_range_max_final := pmax_f;
    p_dyn_final := p_dyn_final;
    phase_final := phase_ff;
    lambda_in_phase_final := lam_f
  |}.

Definition simulate_pz (months : Z) (p_to_bc : float) (params : PZParams)
  (B0 FS0 : float) : result Summary :=
  s <-- run_months params p_to_bc (month_range months)
          (Ok (init_state params B0 FS0)) ;;
  summarize months p_to_bc params s.

(** [0.0 <= x <= 1.0] *)
Definition in_unit (x : float) : bool := (0.0 <=? x) && (x <=? 1.0).

(** Every ratio field in [0,1], every monetary input at least 0. *)
Definition well_formed (params : PZParams) (B0 FS0 : float) : bool :=
  in_unit (fs_pct_of_bpz params) && in_unit (impact_pct_of_bpz_rem params)
  && in_unit (internal_pct_of_bpz_rem params)
  && in_unit (rd_pct_of_internal params)
  && in_unit (wellbeing_pct_of_internal params)
  && in_unit (legal_pct_of_internal params)
  && (0.0 <=? B0) && (0.0 <=? FS0)
  && (0.0 <=? cost_per_employee params) && (0.0 <=? other_fixed_costs params)
  && (0.0 <=? m0 params) && (0.0 <=? A0 params).



End Float64.

(** ** The finite range of the floats

    The exact model follows the program as long as its floats stay
    finite.  [float_bound] is 2^1000, well inside the binary64 range
    (whose largest number is just below 2^1024); a month is in range
    when the quantities that make the utility, the two balances and
    the head count are within that bound, and a run is in range when
    every month of it up to the horizon is. *)
Definition float_bound : Q := inject_Z (2 ^ 1000).

Definition in_range (x : Q) : bool := Qleb (Qabs x) float_bound.

Definition month_in_range (params : PZParams) (s : State) : bool :=
  in_range (month_revenue s)
  && in_range (month_interest params s)
  && in_range (month_costs params s)
  && in_range (other_fixed_costs params)
  && in_range (BC s) && in_range (FS s)
  && (Z.abs (employees s) <=? 2 ^ 1000)%Z.

Definition run_in_range (params : PZParams) (p_to_bc B0 FS0 : Q) (months : Z)
  : bool :=
  forallb (fun k => match state_after params p_to_bc B0 FS0 k with
                    | Some s => month_in_range params s
                    | None => true
                    end)
          (seq 0 (S (Z.to_nat months))).

(** The defaults with a population and a margin of 2^700 each and the
    override 1: the revenue of the first month is 2^1400. *)
Definition huge_revenue_params : PZParams := {|
  r_annual := 0.04;
  A0 := inject_Z (2 ^ 700); m0 := inject_Z (2 ^ 700); employees0 := 2%Z;
  cost_per_employee := 1000; other_fixed_costs := 0;
  fs_pct_of_bpz := 0.30;
  impact_pct_of_bpz_rem := 0.60; internal_pct_of_bpz_rem := 0.40;
  rd_pct_of_internal := 0.60; wellbeing_pct_of_internal := 0.25;
  legal_pct_of_internal := 0.15;
  churn_rate := 0.03; acq_churn_ratio := 1; k_acq := 0.20;
  km_margin := 0.010; krd_margin := 0.006; max_margin_growth := 0.03;
  hire_cooldown_months := 3%Z; hire_trigger_buffer := 1.20;
  use_dynamic_p := true; p_override := 1; p4_max := 0.70;
  rev_growth := 0
|}.


(** * Properties *)

(** Evaluate a run on concrete inputs and give its result as the
    witness of an existential. *)
Ltac exists_result e :=
  let x := eval vm_compute in e in
  match x with
  | Some ?s => exists s
  end.


Ltac by_evaluation := vm_compute; reflexivity.

(** ** Comparisons, [min], [max], [clamp] *)

Lemma Qltb_lt (x y : Q) : Qltb x y = true <-> x < y.
Proof.
  unfold Qltb. rewrite negb_true_iff. split.
  - intros H. apply Qnot_le_lt. intros Hle.
    apply Qle_bool_iff in Hle. congruence.
  - intros H. destruct (Qle_bool y x) eqn:E; [|reflexivity].
    apply Qle_bool_iff in E. lra.
Qed.

Lemma Qltb_ge (x y : Q) : Qltb x y = false <-> y <= x.
Proof.
  unfold Qltb. rewrite negb_false_iff. apply Qle_bool_iff.
Qed.

Lemma Qleb_le (x y : Q) : Qleb x y = true <-> x <= y.
Proof. apply Qle_bool_iff. Qed.

Lemma Qleb_gt (x y : Q) : Qleb x y = false <-> y < x.
Proof.
  unfold Qleb. split.
  - intros H. apply Qnot_le_lt. intros Hle.
    apply Qle_bool_iff in Hle. congruence.
  - intros H. destruct (Qle_bool x y) eqn:E; [|reflexivity].
    apply Qle_bool_iff in E. lra.
Qed.

Lemma py_min_spec (a b : Q) :
  (b < a /\ py_min a b = b) \/ (a <= b /\ py_min a b = a).
Proof.
  unfold py_min. destruct (Qltb b a) eqn:E.
  - left. split; [now apply Qltb_lt | reflexivity].
  - right. split; [now apply Qltb_ge | reflexivity].
Qed.

Lemma py_max_spec (a b : Q) :
  (a < b /\ py_max a b = b) \/ (b <= a /\ py_max a b = a).
Proof.
  unfold py_max. destruct (Qltb a b) eqn:E.
  - left. split; [now apply Qltb_lt | reflexivity].
  - right. split; [now apply Qltb_ge | reflexivity].
Qed.

Lemma clamp_range (x lo hi : Q) : lo <= hi -> lo <= clamp x lo hi <= hi.
Proof.
  intros Hlh. unfold clamp.
  destruct (py_min_spec hi x) as [[H1 E1]|[H1 E1]]; rewrite E1;
    destruct (py_max_spec lo x) as [[H2 E2]|[H2 E2]];
    destruct (py_max_spec lo hi) as [[H3 E3]|[H3 E3]];
    try rewrite E2; try rewrite E3; lra.
Qed.

Lemma clamp_id (x lo hi : Q) : lo <= x <= hi -> clamp x lo hi == x.
Proof.
  intros [Hl Hh]. unfold clamp.
  destruct (py_min_spec hi x) as [[H1 E1]|[H1 E1]]; rewrite E1.
  - destruct (py_max_spec lo x) as [[H2 E2]|[H2 E2]]; rewrite E2; lra.
  - destruct (py_max_spec lo hi) as [[H2 E2]|[H2 E2]]; rewrite E2; lra.
Qed.


(** ** The policy engine *)

Section Policy.

Variable p4 : Q.

Lemma clamp01_range (x : Q) : 0 <= clamp x 0 1 <= 1.
Proof. apply clamp_range. lra. Qed.

(** Inside a phase the share is the linear interpolation of the
    phase's range. *)
Lemma p_dynamic_phase1 (c : Q) :
  0 <= c -> c < 3 ->
  p_dynamic_from_fs (Fin c) p4 == 0.05 + (c / 3) * (0.15 - 0.05).
Proof.
  intros H0 H3. unfold p_dynamic_from_fs, p_bounds_by_fs. simpl.
  rewrite (proj2 (Qltb_lt _ _) H3). simpl.
  rewrite (clamp_id (c / 3) 0 1); [reflexivity|].
  split; [apply Qle_shift_div_l | apply Qle_shift_div_r]; lra.
Qed.

Lemma p_dynamic_phase2 (c : Q) :
  3 <= c -> c < 6 ->
  p_dynamic_from_fs (Fin c) p4 == 0.20 + ((c - 3) / 3) * (0.35 - 0.20).
Proof.
  intros H3 H6. unfold p_dynamic_from_fs, p_bounds_by_fs. simpl.
  rewrite (proj2 (Qltb_ge _ _) H3). rewrite (proj2 (Qltb_lt _ _) H6). simpl.
  rewrite (clamp_id ((c - 3) / 3) 0 1); [reflexivity|].
  split; [apply Qle_shift_div_l | apply Qle_shift_div_r]; lra.
Qed.

Lemma p_dynamic_phase3 (c : Q) :
  6 <= c -> c < 12 ->
  p_dynamic_from_fs (Fin c) p4 == 0.30 + ((c - 6) / 6) * (0.50 - 0.30).
Proof.
  intros H6 H12. unfold p_dynamic_from_fs, p_bounds_by_fs. simpl.
  assert (Qltb c 3 = false) as -> by (apply Qltb_ge; lra).
  rewrite (proj2 (Qltb_ge _ _) H6). rewrite (proj2 (Qltb_lt _ _) H12). simpl.
  rewrite (clamp_id ((c - 6) / 6) 0 1); [reflexivity|].
  split; [apply Qle_shift_div_l | apply Qle_shift_div_r]; lra.
Qed.

Lemma p_dynamic_phase4 (c : Q) :
  12 <= c -> c <= 24 ->
  p_dynamic_from_fs (Fin c) p4 == 0.40 + ((c - 12) / 12) * (p4 - 0.40).
Proof.
  intros H12 H24. unfold p_dynamic_from_fs, p_bounds_by_fs. simpl.
  assert (Qltb c 3 = false) as -> by (apply Qltb_ge; lra).
  assert (Qltb c 6 = false) as -> by (apply Qltb_ge; lra).
  rewrite (proj2 (Qltb_ge _ _) H12). simpl.
  rewrite (clamp_id ((c - 12) / 12) 0 1); [reflexivity|].
  split; [apply Qle_shift_div_l | apply Qle_shift_div_r]; lra.
Qed.

(** Beyond twice the last threshold, and at infinite coverage (costs
    not positive), the share is the ceiling [p4_max]. *)
Lemma p_dynamic_inf : p_dynamic_from_fs PInf p4 == p4.
Proof.
  unfold p_dynamic_from_fs, p_bounds_by_fs. simpl.
  change (py_max 0 1) with 1. ring.
Qed.

End Policy.

(** *** The phase boundaries *)

Lemma Qabs_lt_iff (x y : Q) : Qabs x < y <-> - y < x /\ x < y.
Proof.
  split.
  - intros H. apply Qabs_Qlt_condition in H. exact H.
  - intros H. apply Qabs_Qlt_condition. exact H.
Qed.

(** A function that is affine with slope [k >= 0] on [[lo, b)] tends to
    its affine value at [b]. *)
Lemma left_limit_affine (f : Q -> Q) (lo b a k : Q) :
  lo < b -> 0 <= k ->
  (forall c, lo <= c -> c < b -> f c == a + k * (c - lo)) ->
  left_limit f b (a + k * (b - lo)).
Proof.
  intros Hlo Hk Hf eps Heps.
  exists (py_min (b - lo) (eps / (k + 1))).
  assert (Hd : 0 < eps / (k + 1)) by (apply Qlt_shift_div_l; lra).
  assert (Hke : k * (eps / (k + 1)) < eps).
  { assert (E : eps == (k + 1) * (eps / (k + 1))) by (field; lra).
    rewrite E at 2. nra. }
  split.
  - destruct (py_min_spec (b - lo) (eps / (k + 1))) as [[_ ->]|[_ ->]]; lra.
  - intros c Hc1 Hc2.
    assert (Hc3 : lo <= c /\ b - c < eps / (k + 1)).
    { destruct (py_min_spec (b - lo) (eps / (k + 1))) as [[? E]|[? E]];
        rewrite E in Hc1; split; lra. }
    destruct Hc3 as [Hc3 Hc4].
    rewrite (Hf c Hc3 Hc2). apply Qabs_lt_iff. split; nra.
Qed.

Lemma left_limit_ext (f : Q -> Q) (b L L' : Q) :
  L == L' -> left_limit f b L -> left_limit f b L'.
Proof.
  intros E H eps Heps. destruct (H eps Heps) as [d [Hd Hc]].
  exists d. split; [exact Hd|]. intros c H1 H2.
  specialize (Hc c H1 H2). apply Qabs_lt_iff in Hc. apply Qabs_lt_iff. lra.
Qed.

(** C3 (as amended): the dynamic share is not continuous at the phase
    boundaries.  Its limit from below is the top of the lower phase's
    range (0.15 at coverage 3, 0.35 at 6, 0.50 at 12), and its value at
    the boundary is the bottom of the upper phase's range (0.20, 0.30,
    0.40), whatever [p4_max] is. *)
Theorem p_dynamic_boundaries (p4 : Q) :
  let p := fun c => p_dynamic_from_fs (Fin c) p4 in
  (left_limit p 3 0.15 /\ p 3 == 0.20) /\
  (left_limit p 6 0.35 /\ p 6 == 0.30) /\
  (left_limit p 12 0.50 /\ p 12 == 0.40).
Proof.
  intros p. split; [split|split; split].
  - apply left_limit_ext with (L := 0.05 + (1 # 30) * (3 - 0)); [lra|].
    apply left_limit_affine; [lra | lra |].
    intros c H0 H3. unfold p. rewrite p_dynamic_phase1 by lra. field.
  - unfold p. rewrite p_dynamic_phase2 by lra. field.
  - apply left_limit_ext with (L := 0.20 + (1 # 20) * (6 - 3)); [lra|].
    apply left_limit_affine; [lra | lra |].
    intros c H0 H3. unfold p. rewrite p_dynamic_phase2 by lra. field.
  - unfold p. rewrite p_dynamic_phase3 by lra. field.
  - apply left_limit_ext with (L := 0.30 + (1 # 30) * (12 - 6)); [lra|].
    apply left_limit_affine; [lra | lra |].
    intros c H0 H3. unfold p. rewrite p_dynamic_phase3 by lra. field.
  - unfold p. rewrite p_dynamic_phase4 by lra. field.
Qed.

(** C3 (as stated) fails: at coverage 3 the top of Phase 1's range
    (lambda = 1) is 0.15 and the bottom of Phase 2's range (lambda = 0)
    is 0.20, and the share does not tend to its value at 3. *)
Lemma p_dynamic_jump_at_3 :
  ~ phase_value (Fin 0) 0.70 1 == phase_value (Fin 3) 0.70 0 /\
  ~ left_limit (fun c => p_dynamic_from_fs (Fin c) 0.70) 3
      (p_dynamic_from_fs (Fin 3) 0.70).
Proof.
  split.
  - vm_compute. discriminate.
  - intros H. destruct (H 0.05) as [d [Hd Hc]]; [lra|].
    pose (c := 3 - py_min 1 d * (1 # 2)).
    assert (Hm : 0 < py_min 1 d <= d).
    { destruct (py_min_spec 1 d) as [[? ->]|[? ->]]; lra. }
    assert (Hc1 : 3 - d < c) by (unfold c; lra).
    assert (Hc2 : c < 3) by (unfold c; lra).
    specialize (Hc c Hc1 Hc2).
    rewrite p_dynamic_phase1 in Hc.
    + rewrite p_dynamic_phase2 in Hc by lra.
      assert (E1 : c / 3 == c * (1 # 3)) by field.
      assert (E2 : (3 - 3) / 3 == 0) by field.
      rewrite E1, E2 in Hc. apply Qabs_lt_iff in Hc. lra.
    + unfold c. destruct (py_min_spec 1 d) as [[? E]|[? E]]; rewrite E; lra.
    + exact Hc2.
Qed.

(** ** One month of [simulate_pz] *)

Section Month.

Variable params : PZParams.
Variable p_to_bc : Q.

(** A month with non-positive utility changes [u_sum] only. *)
Lemma month_body_freeze (t : Z) (s : State) :
  month_U params s <= 0 ->
  month_body params p_to_bc t s =
  Some (mkState (A s) (m s) (employees s) (BC s) (FS s) (impact_cum s)
          (months_u_pos s) (first_impact_month s)
          (u_sum s + month_U params s)
          (hires s) (last_hire_month s) (last_p_eff s) (last_phase s)).
Proof.
  intros HU. unfold month_body.
  change (A s * m s + r_monthly (r_annual params) * (BC s + FS s)
          - (inject_Z (employees s) * cost_per_employee params
             + other_fixed_costs params))
    with (month_U params s).
  apply Qltb_ge in HU. rewrite HU. reflexivity.
Qed.

(** The one exception of the loop: the intensity denominator
    [costs + 1] is zero in a month with positive utility. *)
Lemma month_body_raises (t : Z) (s : State) :
  0 < month_U params s ->
  month_costs params s + 1 == 0 ->
  month_body params p_to_bc t s = None.
Proof.
  intros HU Hden. unfold month_body.
  change (A s * m s + r_monthly (r_annual params) * (BC s + FS s)
          - (inject_Z (employees s) * cost_per_employee params
             + other_fixed_costs params))
    with (month_U params s).
  change (inject_Z (employees s) * cost_per_employee params
          + other_fixed_costs params)
    with (month_costs params s).
  apply Qltb_lt in HU. rewrite HU.
  destruct (p_bounds_by_fs _ _) as [[[? ?] ?] ?].
  unfold py_div. apply Qeq_bool_iff in Hden. rewrite Hden. reflexivity.
Qed.

(** A month with positive utility, field by field. *)
Lemma month_body_positive (t : Z) (s : State) :
  0 < month_U params s ->
  ~ month_costs params s + 1 == 0 ->
  exists s',
    month_body params p_to_bc t s = Some s' /\
    BC s' = BC s + month_BC_in params p_to_bc s /\
    FS s' = FS s + month_FS_in params p_to_bc s /\
    impact_cum s' = impact_cum s + month_impact params p_to_bc s /\
    0 <= A s' /\
    employees s' =
      (if month_hires params p_to_bc t s then employees s + 1
       else employees s)%Z /\
    hires s' =
      (if month_hires params p_to_bc t s then hires s + 1 else hires s)%Z /\
    last_hire_month s' =
      (if month_hires params p_to_bc t s then t else last_hire_month s) /\
    u_sum s' = u_sum s + month_U params s /\
    months_u_pos s' = (months_u_pos s + 1)%Z /\
    last_p_eff s' = Some (month_p_eff params p_to_bc s).
Proof.
  intros HU Hden. unfold month_body.
  change (A s * m s + r_monthly (r_annual params) * (BC s + FS s)
          - (inject_Z (employees s) * cost_per_employee params
             + other_fixed_costs params))
    with (month_U params s).
  change (inject_Z (employees s) * cost_per_employee params
          + other_fixed_costs params)
    with (month_costs params s).
  apply Qltb_lt in HU. rewrite HU.
  destruct (p_bounds_by_fs _ _) as [[[? ?] ?] ?].
  unfold py_div.
  destruct (Qeq_bool (month_costs params s + 1) 0) eqn:E.
  { apply Qeq_bool_iff in E. contradiction. }
  eexists. split; [reflexivity|]. cbn [BC FS impact_cum A employees hires
    last_hire_month u_sum months_u_pos last_p_eff].
  repeat split; try reflexivity.
  match goal with |- 0 <= py_max 0 ?x =>
    destruct (py_max_spec 0 x) as [[? ->]|[? ->]]; lra end.
Qed.

(** What a successful month can have been. *)
Lemma month_body_cases (t : Z) (s s' : State) :
  month_body params p_to_bc t s = Some s' ->
  (month_U params s <= 0) \/
  (0 < month_U params s /\ ~ month_costs params s + 1 == 0).
Proof.
  intros H. destruct (Qlt_le_dec 0 (month_U params s)) as [HU|HU].
  - right. split; [exact HU|]. intros Hden.
    rewrite (month_body_raises t s HU Hden) in H. discriminate.
  - left. exact HU.
Qed.

End Month.

(** ** Runs of [simulate_pz] *)

Lemma month_range_of_nat_S (k : nat) :
  month_range (Z.of_nat (S k)) =
  month_range (Z.of_nat k) ++ [Z.of_nat (S k)].
Proof.
  unfold month_range. rewrite !Nat2Z.id, seq_S, map_app. reflexivity.
Qed.

Lemma month_range_to_nat (months : Z) :
  month_range months = month_range (Z.of_nat (Z.to_nat months)).
Proof. unfold month_range. now rewrite Nat2Z.id. Qed.

Section Run.

Variable params : PZParams.
Variable p_to_bc B0 FS0 : Q.

Local Abbreviation state_at := (state_after params p_to_bc B0 FS0).

Lemma state_after_0 : state_at 0%nat = Some (init_state params B0 FS0).
Proof. reflexivity. Qed.

Lemma state_after_S (k : nat) :
  state_at (S k) =
  s <- state_at k ;; month_body params p_to_bc (Z.of_nat (S k)) s.
Proof.
  unfold state_after, run_months.
  rewrite month_range_of_nat_S, fold_left_app. reflexivity.
Qed.

(** The state after [S k] months comes from a state after [k] months. *)
Lemma state_after_S_inv (k : nat) (s' : State) :
  state_at (S k) = Some s' ->
  exists s, state_at k = Some s /\
            month_body params p_to_bc (Z.of_nat (S k)) s = Some s'.
Proof.
  rewrite state_after_S. destruct (state_at k) as [s|]; [|discriminate].
  intros H. now exists s.
Qed.

Lemma state_after_prefix (k d : nat) (s' : State) :
  state_at (k + d) = Some s' -> exists s, state_at k = Some s.
Proof.
  revert s'. induction d as [|d IH]; intros s' H.
  - rewrite Nat.add_0_r in H. now exists s'.
  - rewrite Nat.add_succ_r in H.
    apply state_after_S_inv in H as [s [H _]]. now apply IH with s.
Qed.

(** Induction along a run. *)
Lemma run_invariant (P : nat -> State -> Prop) :
  P 0%nat (init_state params B0 FS0) ->
  (forall k s s', state_at k = Some s -> P k s ->
     month_body params p_to_bc (Z.of_nat (S k)) s = Some s' -> P (S k) s') ->
  forall k s, state_at k = Some s -> P k s.
Proof.
  intros H0 HS. induction k as [|k IH]; intros s H.
  - rewrite state_after_0 in H. injection H as <-. exact H0.
  - apply state_after_S_inv in H as [s0 [H1 H2]].
    apply (HS k s0 s H1 (IH s0 H1) H2).
Qed.

(** A preorder that every month respects relates any two states of a
    run in the order of time. *)
Lemma run_monotone (R : State -> State -> Prop) :
  (forall s, R s s) ->
  (forall s1 s2 s3, R s1 s2 -> R s2 s3 -> R s1 s3) ->
  (forall k s s', state_at k = Some s ->
     month_body params p_to_bc (Z.of_nat (S k)) s = Some s' -> R s s') ->
  forall k d s s',
    state_at k = Some s -> state_at (k + d) = Some s' -> R s s'.
Proof.
  intros Hrefl Htrans Hstep k d. induction d as [|d IH]; intros s s' H H'.
  - rewrite Nat.add_0_r in H'. rewrite H in H'. injection H' as <-.
    apply Hrefl.
  - rewrite Nat.add_succ_r in H'.
    apply state_after_S_inv in H' as [s1 [H1 H2]].
    apply Htrans with s1; [now apply IH | now apply (Hstep (k + d)%nat)].
Qed.

Lemma simulate_pz_state (months : Z) :
  simulate_pz months p_to_bc params B0 FS0 =
  s <- state_at (Z.to_nat months) ;;
  Some (summarize months p_to_bc params s).
Proof.
  unfold simulate_pz, state_after. now rewrite <- month_range_to_nat.
Qed.

End Run.

(** ** The conservative freeze *)

(** C5: a month of the run whose utility is not positive leaves the
    balances, the population, the margin, the head count, the cumulated
    impact, the last-hire marker and the other counters as they were at
    the start of the month; the utility is added to [u_sum], and nothing
    else changes. *)
Theorem freeze_on_nonpositive_utility
  (params : PZParams) (p_to_bc B0 FS0 : Q) (k : nat) (s : State) :
  state_after params p_to_bc B0 FS0 k = Some s ->
  month_U params s <= 0 ->
  exists s',
    state_after params p_to_bc B0 FS0 (S k) = Some s' /\
    BC s' = BC s /\ FS s' = FS s /\ A s' = A s /\ m s' = m s /\
    employees s' = employees s /\
    impact_cum s' = impact_cum s /\
    last_hire_month s' = last_hire_month s /\
    hires s' = hires s /\
    months_u_pos s' = months_u_pos s /\
    first_impact_month s' = first_impact_month s /\
    last_p_eff s' = last_p_eff s /\
    last_phase s' = last_phase s /\
    u_sum s' = u_sum s + month_U params s.
Proof.
  intros Hk HU. rewrite state_after_S, Hk.
  rewrite (month_body_freeze params p_to_bc _ s HU).
  eexists. split; [reflexivity|]. cbn. repeat split.
Qed.

Lemma freeze_on_nonpositive_utility_witness :
  exists s',
    state_after no_revenue_params 0.30 0 0 1 = Some s' /\
    BC s' = 0 /\ FS s' = 0 /\ A s' = 0 /\ m s' = 25 /\
    employees s' = 2%Z /\
    impact_cum s' = 0 /\
    last_hire_month s' = (-10000)%Z /\
    hires s' = 0%Z /\
    months_u_pos s' = 0%Z /\
    first_impact_month s' = None /\
    last_p_eff s' = None /\
    last_phase s' = None /\
    u_sum s' = 0 + month_U no_revenue_params (init_state no_revenue_params 0 0).
Proof.
  apply (freeze_on_nonpositive_utility no_revenue_params 0.30 0 0 0
           (init_state no_revenue_params 0 0)).
  - reflexivity.
  - vm_compute. discriminate.
Defined.

(** ** The effective investment share *)

Lemma in_unit_true (x : Q) : in_unit x = true <-> 0 <= x <= 1.
Proof.
  unfold in_unit. rewrite andb_true_iff, !Qleb_le. reflexivity.
Qed.

Lemma in_unit_false (x : Q) : in_unit x = false <-> ~ 0 <= x <= 1.
Proof.
  rewrite <- in_unit_true. destruct (in_unit x); split; congruence.
Qed.

(** With the override in [0,1], a positive month uses it. *)
Lemma override_in_unit_used
  (params : PZParams) (p_to_bc : Q) (t : Z) (s : State) :
  0 < month_U params s ->
  ~ month_costs params s + 1 == 0 ->
  0 <= p_override params <= 1 ->
  exists s',
    month_body params p_to_bc t s = Some s' /\
    last_p_eff s' = Some (clamp (p_override params) 0 1).
Proof.
  intros HU Hden H.
  destruct (month_body_positive params p_to_bc t s HU Hden)
    as (s' & Hs' & _ & _ & _ & _ & _ & _ & _ & _ & _ & Hp).
  exists s'. split; [exact Hs'|]. rewrite Hp.
  unfold month_p_eff, effective_p. apply in_unit_true in H. now rewrite H.
Qed.

(** [clamp] to [0,1] at its three cases: below 0 it gives 0, above 1 it
    gives 1. *)
Lemma clamp01_below (x : Q) : x < 0 -> clamp x 0 1 = 0.
Proof.
  intros H. unfold clamp, py_min, py_max.
  rewrite (proj2 (Qltb_lt x 1)) by lra.
  rewrite (proj2 (Qltb_ge 0 x)) by lra. reflexivity.
Qed.

Lemma clamp01_above (x : Q) : 1 < x -> clamp x 0 1 = 1.
Proof.
  intros H. unfold clamp, py_min, py_max.
  rewrite (proj2 (Qltb_ge x 1)) by lra. reflexivity.
Qed.

(** C4: in a month with positive utility the share that splits the
    utility comes from one source, chosen by precedence: the override
    when it lies in [0,1], else the dynamic share of the pre-allocation
    coverage when [use_dynamic_p] holds, else the caller's [p_to_bc].
    Whichever the source, the share is its clamp to [0,1]: the source
    itself when it lies in [0,1], 0 when it is below 0 and 1 when it is
    above 1.  That share is recorded as the last effective share and
    [BC] receives that share of the utility. *)
Theorem effective_share_precedence
  (params : PZParams) (p_to_bc : Q) (t : Z) (s : State) :
  0 < month_U params s ->
  ~ month_costs params s + 1 == 0 ->
  exists s' src pe,
    month_body params p_to_bc t s = Some s' /\
    last_p_eff s' = Some pe /\
    BC s' = BC s + pe * month_U params s /\
    (0 <= p_override params <= 1 -> src = p_override params) /\
    (~ 0 <= p_override params <= 1 -> use_dynamic_p params = true ->
       src = p_dynamic_from_fs (month_coverage params s) (p4_max params)) /\
    (~ 0 <= p_override params <= 1 -> use_dynamic_p params = false ->
       src = p_to_bc) /\
    pe = clamp src 0 1 /\
    0 <= pe <= 1 /\
    (0 <= src <= 1 -> pe == src) /\
    (src < 0 -> pe = 0) /\
    (1 < src -> pe = 1).
Proof.
  intros HU Hden.
  destruct (month_body_positive params p_to_bc t s HU Hden)
    as (s' & Hs' & HBC & _ & _ & _ & _ & _ & _ & _ & _ & Hp).
  exists s'.
  exists (if in_unit (p_override params) then p_override params
          else if use_dynamic_p params
               then p_dynamic_from_fs (month_coverage params s) (p4_max params)
               else p_to_bc).
  exists (month_p_eff params p_to_bc s).
  split; [exact Hs'|]. split; [exact Hp|]. split; [exact HBC|].
  split; [intros H; apply in_unit_true in H; now rewrite H|].
  split; [intros H Hd; apply in_unit_false in H; now rewrite H, Hd|].
  split; [intros H Hd; apply in_unit_false in H; now rewrite H, Hd|].
  split; [reflexivity|].
  split; [apply clamp01_range|].
  unfold month_p_eff, effective_p.
  split; [apply clamp_id|].
  split; [apply clamp01_below | apply clamp01_above].
Qed.

Lemma effective_share_precedence_witness :
  exists s' src pe,
    month_body default_params 0.30 1 (init_state default_params 0 0)
      = Some s' /\
    last_p_eff s' = Some pe /\
    BC s' = 0 + pe * month_U default_params (init_state default_params 0 0) /\
    (0 <= -1 <= 1 -> src = -1) /\
    (~ 0 <= -1 <= 1 -> true = true ->
       src = p_dynamic_from_fs
               (month_coverage default_params
                  (init_state default_params 0 0)) 0.70) /\
    (~ 0 <= -1 <= 1 -> true = false -> src = 0.30) /\
    pe = clamp src 0 1 /\
    0 <= pe <= 1 /\
    (0 <= src <= 1 -> pe == src) /\
    (src < 0 -> pe = 0) /\
    (1 < src -> pe = 1).
Proof.
  apply (effective_share_precedence default_params 0.30 1
           (init_state default_params 0 0)).
  - vm_compute. reflexivity.
  - vm_compute. discriminate.
Defined.

(** *** The override and its sentinel *)

Lemma effective_p_out_of_range (params : PZParams) (v p_to_bc : Q)
  (cov : coverage) :
  ~ 0 <= v <= 1 ->
  effective_p (set_p_override v params) p_to_bc cov =
  effective_p (set_p_override (-1) params) p_to_bc cov.
Proof.
  intros H. apply in_unit_false in H. unfold effective_p. cbn.
  rewrite H. reflexivity.
Qed.

Lemma month_body_out_of_range (v : Q) :
  ~ 0 <= v <= 1 -> treated_as_no_override v.
Proof.
  intros H params p_to_bc t s. unfold month_body. cbn.
  rewrite (effective_p_out_of_range params v p_to_bc _ H). reflexivity.
Qed.

(** C6 (as amended): every override value outside [0,1], the sentinel
    -1 or any other, is treated as "no override": the month runs exactly
    as with the sentinel.  Every override value in [0,1], 0 and 1
    included, is the effective share of a positive month, the clamp
    leaving it numerically as it is. *)
Theorem override_guard (params : PZParams) (p_to_bc : Q) (t : Z) (s : State) :
  (~ 0 <= p_override params <= 1 ->
     month_body params p_to_bc t s =
     month_body (set_p_override (-1) params) p_to_bc t s) /\
  (0 <= p_override params <= 1 ->
     0 < month_U params s -> ~ month_costs params s + 1 == 0 ->
     exists s' pe,
       month_body params p_to_bc t s = Some s' /\
       last_p_eff s' = Some pe /\
       pe = clamp (p_override params) 0 1 /\
       pe == p_override params).
Proof.
  split.
  - intros H.
    assert (E : params = set_p_override (p_override params) params)
      by (destruct params; reflexivity).
    rewrite E at 1. now apply month_body_out_of_range.
  - intros H HU Hden.
    destruct (override_in_unit_used params p_to_bc t s HU Hden H)
      as (s' & Hs' & Hp).
    exists s', (clamp (p_override params) 0 1).
    repeat split; try assumption. now apply clamp_id.
Qed.

Lemma override_guard_witness :
  month_body (set_p_override 2 default_params) 0.30 1
    (init_state default_params 0 0) =
  month_body (set_p_override (-1) (set_p_override 2 default_params)) 0.30 1
    (init_state default_params 0 0) /\
  exists s' pe,
    month_body (set_p_override 1 default_params) 0.30 1
      (init_state default_params 0 0) = Some s' /\
    last_p_eff s' = Some pe /\
    pe = clamp 1 0 1 /\
    pe == 1.
Proof.
  split.
  - apply (override_guard (set_p_override 2 default_params) 0.30 1
             (init_state default_params 0 0)).
    intros [_ H]. vm_compute in H. now apply H.
  - apply (override_guard (set_p_override 1 default_params) 0.30 1
             (init_state default_params 0 0)).
    + split; vm_compute; discriminate.
    + vm_compute. reflexivity.
    + vm_compute. discriminate.
Defined.

(** C6 (as stated) fails: the override 2.0 is outside [0,1], is not
    the sentinel, and is treated as "no override" all the same. *)
Lemma override_two_is_no_override :
  ~ 0 <= 2 <= 1 /\ ~ 2 == -1 /\ treated_as_no_override 2 /\
  effective_p (set_p_override 2 default_params) 0.30 (Fin 0)
  = p_dynamic_from_fs (Fin 0) 0.70.
Proof.
  assert (H : ~ 0 <= 2 <= 1) by (intros [_ H]; vm_compute in H; now apply H).
  split; [exact H|]. split; [vm_compute; discriminate|].
  split; [now apply month_body_out_of_range|].
  vm_compute. reflexivity.
Qed.

(** ** Balances and population along a run *)

Section Balances.

Variable params : PZParams.
Variable p_to_bc B0 FS0 : Q.
Hypothesis Hwf : well_formed params B0 FS0.

Local Abbreviation state_at := (state_after params p_to_bc B0 FS0).








End Balances.



(** The input of the counterexample below is outside the finite range:
    in exact arithmetic its first month has a revenue of 2^1400. *)
Lemma huge_revenue_out_of_range :
  well_formed huge_revenue_params 0 0 /\
  run_in_range huge_revenue_params 0.30 0 0 1 = false.
Proof.
  split; [|by_evaluation].
  unfold well_formed. cbn. repeat split; vm_compute; discriminate.
Qed.


(** ** Hiring *)

Section Hiring.

Variable params : PZParams.
Variable p_to_bc B0 FS0 : Q.

Local Abbreviation state_at := (state_after params p_to_bc B0 FS0).

(** A month either leaves the head count and the marker alone, or
    hires one person, which takes positive utility, an elapsed cooldown
    and a post-allocation FS at the threshold, and sets the marker. *)
Lemma month_body_hiring (t : Z) (s s' : State) :
  month_body params p_to_bc t s = Some s' ->
  (employees s' = employees s /\
   last_hire_month s' = last_hire_month s /\ hires s' = hires s) \/
  (employees s' = (employees s + 1)%Z /\
   last_hire_month s' = t /\ hires s' = (hires s + 1)%Z /\
   0 < month_U params s /\
   (hire_cooldown_months params <= t - last_hire_month s)%Z /\
   hire_threshold params s <= FS s').
Proof.
  intros H.
  destruct (month_body_cases params p_to_bc t s s' H) as [HU|[HU Hden]].
  - rewrite (month_body_freeze params p_to_bc t s HU) in H.
    injection H as <-. left. cbn. auto.
  - destruct (month_body_positive params p_to_bc t s HU Hden)
      as (s1 & Hs1 & _ & HFS & _ & _ & He & Hh & Hl & _).
    rewrite Hs1 in H. injection H as <-.
    rewrite He, Hh, Hl, HFS.
    destruct (month_hires params p_to_bc t s) eqn:E; [right | left; auto].
    unfold month_hires in E. apply andb_true_iff in E as [E1 E2].
    apply Z.leb_le in E1. apply Qleb_le in E2. auto 6.
Qed.

(** The conditions of a hire, once met, do hire. *)
Lemma month_body_hires (t : Z) (s s' : State) :
  month_body params p_to_bc t s = Some s' ->
  0 < month_U params s ->
  (hire_cooldown_months params <= t - last_hire_month s)%Z ->
  hire_threshold params s <= FS s' ->
  employees s' = (employees s + 1)%Z.
Proof.
  intros H HU Hc Hfs.
  destruct (month_body_cases params p_to_bc t s s' H) as [HU'|[_ Hden]];
    [lra|].
  destruct (month_body_positive params p_to_bc t s HU Hden)
    as (s1 & Hs1 & _ & HFS & _ & _ & He & _).
  rewrite Hs1 in H. injection H as <-. rewrite He.
  assert (E : month_hires params p_to_bc t s = true).
  { unfold month_hires. apply andb_true_iff. split.
    - now apply Z.leb_le.
    - apply Qleb_le. now rewrite <- HFS. }
  now rewrite E.
Qed.

(** The marker never runs ahead of the calendar. *)
Lemma last_hire_month_le (k : nat) (s : State) :
  state_at k = Some s -> (last_hire_month s <= Z.of_nat k)%Z.
Proof.
  apply (run_invariant params p_to_bc B0 FS0
           (fun k s => (last_hire_month s <= Z.of_nat k)%Z)).
  - cbn. lia.
  - intros k0 s0 s0' _ IH H.
    destruct (month_body_hiring _ _ _ H) as [(_ & -> & _)|(_ & -> & _)]; lia.
Qed.

(** The marker only moves forward. *)
Lemma last_hire_month_mono (k d : nat) (s s' : State) :
  state_at k = Some s -> state_at (k + d) = Some s' ->
  (last_hire_month s <= last_hire_month s')%Z.
Proof.
  apply (run_monotone params p_to_bc B0 FS0
           (fun s s' => (last_hire_month s <= last_hire_month s')%Z)).
  - intros. lia.
  - intros. lia.
  - intros k0 s0 s0' Hs0 H. pose proof (last_hire_month_le k0 s0 Hs0).
    destruct (month_body_hiring _ _ _ H) as [(_ & -> & _)|(_ & -> & _)]; lia.
Qed.

(** What a hire in month [t] means for the states around it. *)
Lemma hire_at_inv (t : nat) :
  hire_at params p_to_bc B0 FS0 t ->
  exists s s',
    (1 <= t)%nat /\ state_at (pred t) = Some s /\ state_at t = Some s' /\
    last_hire_month s' = Z.of_nat t /\
    (hire_cooldown_months params <= Z.of_nat t - last_hire_month s)%Z.
Proof.
  intros (s & s' & Ht & Hs & Hs' & He).
  exists s, s'. repeat split; try assumption.
  - destruct t as [|k]; [lia|]. cbn in Hs.
    apply state_after_S_inv in Hs' as (s0 & Hs0 & Hb).
    rewrite Hs in Hs0. injection Hs0 as <-.
    destruct (month_body_hiring _ _ _ Hb) as [(E & _)|(_ & E & _)];
      [lia | exact E].
  - destruct t as [|k]; [lia|]. cbn in Hs.
    apply state_after_S_inv in Hs' as (s0 & Hs0 & Hb).
    rewrite Hs in Hs0. injection Hs0 as <-.
    destruct (month_body_hiring _ _ _ Hb) as [(E & _)|(_ & _ & _ & _ & E & _)];
      [lia | exact E].
Qed.

(** As long as the conditions of a hire were never met, the marker
    still has its initial value. *)
Lemma marker_untouched (k : nat) (s : State) :
  (forall j, (j <= k)%nat -> ~ hire_conditions_met params p_to_bc B0 FS0 j) ->
  state_at k = Some s -> last_hire_month s = (-10000)%Z.
Proof.
  revert s. induction k as [|k IH]; intros s Hno Hs.
  - rewrite state_after_0 in Hs. now injection Hs as <-.
  - apply state_after_S_inv in Hs as Hs0. destruct Hs0 as (s0 & Hs0 & Hb).
    assert (IH0 : last_hire_month s0 = (-10000)%Z).
    { apply IH; [|exact Hs0]. intros j Hj. apply Hno. lia. }
    destruct (month_body_hiring _ _ _ Hb)
      as [(_ & E & _)|(_ & _ & _ & HU & _ & Hfs)].
    + now rewrite E.
    + exfalso. apply (Hno (S k) (Nat.le_refl _)).
      exists s0, s. repeat split; try assumption. lia.
Qed.

End Hiring.

(** C8: two hires of a run are at least [hire_cooldown_months] apart,
    however far FS is above the trigger. *)
Theorem hires_respect_cooldown
  (params : PZParams) (p_to_bc B0 FS0 : Q) (t1 t2 : nat) :
  hire_at params p_to_bc B0 FS0 t1 ->
  hire_at params p_to_bc B0 FS0 t2 ->
  (t1 < t2)%nat ->
  (hire_cooldown_months params <= Z.of_nat t2 - Z.of_nat t1)%Z.
Proof.
  intros H1 H2 Hlt.
  apply hire_at_inv in H1 as (_ & s1 & _ & _ & Hs1 & Hm1 & _).
  apply hire_at_inv in H2 as (s2 & _ & _ & Hs2 & _ & _ & Hc2).
  assert (Hmono : (last_hire_month s1 <= last_hire_month s2)%Z).
  { apply (last_hire_month_mono params p_to_bc B0 FS0 t1 (pred t2 - t1));
      [exact Hs1|].
    replace (t1 + (pred t2 - t1))%nat with (pred t2) by lia. exact Hs2. }
  lia.
Qed.

Lemma hire_at_eager_1 : hire_at eager_hiring_params 0.30 0 0 1.
Proof.
  exists_result (state_after eager_hiring_params 0.30 0 0 0).
  exists_result (state_after eager_hiring_params 0.30 0 0 1).
  split; [lia|]. split; [by_evaluation|]. split; by_evaluation.
Defined.

Lemma hire_at_eager_4 : hire_at eager_hiring_params 0.30 0 0 4.
Proof.
  exists_result (state_after eager_hiring_params 0.30 0 0 3).
  exists_result (state_after eager_hiring_params 0.30 0 0 4).
  split; [lia|]. split; [by_evaluation|]. split; by_evaluation.
Defined.

Lemma hires_respect_cooldown_witness :
  hire_at eager_hiring_params 0.30 0 0 1 /\
  hire_at eager_hiring_params 0.30 0 0 4 /\
  (hire_cooldown_months eager_hiring_params <= Z.of_nat 4 - Z.of_nat 1)%Z.
Proof.
  split; [exact hire_at_eager_1|]. split; [exact hire_at_eager_4|].
  apply (hires_respect_cooldown eager_hiring_params 0.30 0 0 1 4).
  - exact hire_at_eager_1.
  - exact hire_at_eager_4.
  - lia.
Defined.

(** C10: the last-hire marker starts at -10000, so that with a
    cooldown of at most 10001 months the first month of a run with
    positive utility and a post-allocation FS at or above
    [hire_trigger_buffer * fs_target] hires; and no month raises the
    head count by more than one. *)
Theorem first_hire_not_blocked (params : PZParams) (p_to_bc B0 FS0 : Q) :
  last_hire_month (init_state params B0 FS0) = (-10000)%Z /\
  (forall t,
     (hire_cooldown_months params <= 10001)%Z ->
     hire_conditions_met params p_to_bc B0 FS0 t ->
     (forall j, (j < t)%nat ->
        ~ hire_conditions_met params p_to_bc B0 FS0 j) ->
     hire_at params p_to_bc B0 FS0 t) /\
  (forall k s s',
     state_after params p_to_bc B0 FS0 k = Some s ->
     state_after params p_to_bc B0 FS0 (S k) = Some s' ->
     employees s' = employees s \/ employees s' = (employees s + 1)%Z).
Proof.
  split; [reflexivity|]. split.
  - intros t Hc (s & s' & Ht & Hs & Hs' & HU & Hfs) Hfirst.
    exists s, s'. repeat split; try assumption.
    destruct t as [|k]; [lia|]. cbn in Hs.
    assert (Hm : last_hire_month s = (-10000)%Z).
    { apply (marker_untouched params p_to_bc B0 FS0 k); [|exact Hs].
      intros j Hj. apply Hfirst. lia. }
    apply state_after_S_inv in Hs' as (s0 & Hs0 & Hb).
    rewrite Hs in Hs0. injection Hs0 as <-.
    apply (month_body_hires params p_to_bc _ s s' Hb HU); [lia | exact Hfs].
  - intros k s s' Hs Hs'.
    apply state_after_S_inv in Hs' as (s0 & Hs0 & Hb).
    rewrite Hs in Hs0. injection Hs0 as <-.
    destruct (month_body_hiring _ _ _ _ _ Hb) as [(E & _)|(E & _)]; auto.
Qed.

Lemma first_hire_not_blocked_witness :
  hire_at eager_hiring_params 0.30 0 0 1.
Proof.
  apply (first_hire_not_blocked eager_hiring_params 0.30 0 0).
  - vm_compute. discriminate.
  - exists_result (state_after eager_hiring_params 0.30 0 0 0).
    exists_result (state_after eager_hiring_params 0.30 0 0 1).
    split; [lia|]. split; [by_evaluation|]. split; [by_evaluation|].
    split; vm_compute; [reflexivity | discriminate].
  - intros j Hj (s & s' & Hj1 & _). lia.
Defined.

(** ** Revenue *)

Lemma month_body_rev_growth (g : Q) (params : PZParams) (p_to_bc : Q)
  (t : Z) (s : State) :
  month_body (set_rev_growth g params) p_to_bc t s =
  month_body params p_to_bc t s.
Proof. reflexivity. Qed.

Lemma state_after_rev_growth (g : Q) (params : PZParams)
  (p_to_bc B0 FS0 : Q) (k : nat) :
  state_after (set_rev_growth g params) p_to_bc B0 FS0 k =
  state_after params p_to_bc B0 FS0 k.
Proof.
  induction k as [|k IH]; [reflexivity|].
  rewrite !state_after_S, IH.
  destruct (state_after params p_to_bc B0 FS0 k); reflexivity.
Qed.

(** C7 (as amended): [simulate_pz] has one revenue mode.  The utility
    it records for a month is population times margin, plus interest,
    minus costs, on the state the month starts in; and the field
    [rev_growth] has no effect on what it returns. *)
Theorem revenue_is_organic (params : PZParams) (p_to_bc B0 FS0 : Q) :
  (forall k s s',
     state_after params p_to_bc B0 FS0 k = Some s ->
     state_after params p_to_bc B0 FS0 (S k) = Some s' ->
     u_sum s' = u_sum s + (A s * m s
                           + r_monthly (r_annual params) * (BC s + FS s)
                           - month_costs params s)) /\
  (forall g months,
     simulate_pz months p_to_bc (set_rev_growth g params) B0 FS0 =
     simulate_pz months p_to_bc params B0 FS0).
Proof.
  split.
  - intros k s s' Hs Hs'.
    apply state_after_S_inv in Hs' as (s0 & Hs0 & Hb).
    rewrite Hs in Hs0. injection Hs0 as <-.
    destruct (month_body_cases _ _ _ _ _ Hb) as [HU|[HU Hden]].
    + rewrite (month_body_freeze _ _ _ _ HU) in Hb. now injection Hb as <-.
    + destruct (month_body_positive params p_to_bc (Z.of_nat (S k)) s HU Hden)
        as (s1 & Hs1 & _ & _ & _ & _ & _ & _ & _ & Hu & _).
      rewrite Hs1 in Hb. injection Hb as <-. exact Hu.
  - intros g months. rewrite !simulate_pz_state, state_after_rev_growth.
    destruct (state_after _ _ _ _ _); reflexivity.
Qed.

Lemma revenue_is_organic_witness :
  exists s s',
    state_after default_params 0.30 0 0 0 = Some s /\
    state_after default_params 0.30 0 0 1 = Some s' /\
    u_sum s' == 500.
Proof.
  exists_result (state_after default_params 0.30 0 0 0).
  exists_result (state_after default_params 0.30 0 0 1).
  split; [by_evaluation|]. split; [by_evaluation|].
  rewrite (proj1 (revenue_is_organic default_params 0.30 0 0) 0%nat _ _
             ltac:(by_evaluation) ltac:(by_evaluation)).
  by_evaluation.
Defined.

(** C7 (as stated) fails: with a growth rate of +100% a month set in the
    configuration, the second month of [simulate_pz] still earns
    100 * 25 (a utility of 500), where the exogenous formula
    [A0 * m0 * (1 + rev_growth) ^ (t - 1)], which the dashboard's
    trajectory uses on the same configuration, earns 5000 (a utility of
    3000). *)
Lemma simulate_pz_ignores_rev_growth :
  exists s1 s2 r,
    state_after doubling_revenue_params 0.30 0 0 1 = Some s1 /\
    state_after doubling_revenue_params 0.30 0 0 2 = Some s2 /\
    nth_error
      (Dashboard.run_path_until 2 doubling_revenue_params 100 25 0 0) 1
      = Some r /\
    u_sum s2 - u_sum s1 == 100 * 25 - 2000 /\
    Dashboard.row_utility r == 100 * 25 * (1 + 1) ^ (2 - 1) - 2000 /\
    ~ u_sum s2 - u_sum s1 == Dashboard.row_utility r.
Proof.
  exists_result (state_after doubling_revenue_params 0.30 0 0 1).
  exists_result (state_after doubling_revenue_params 0.30 0 0 2).
  exists_result
    (nth_error
       (Dashboard.run_path_until 2 doubling_revenue_params 100 25 0 0) 1).
  split; [by_evaluation|]. split; [by_evaluation|]. split; [by_evaluation|].
  split; [by_evaluation|]. split; [by_evaluation|].
  vm_compute. discriminate.
Qed.

(** ** Summary mode and trajectory mode *)



Lemma grid_run_months_None (params : PZParams) (ts : list Z) :
  Grid.run_months params ts None = None.
Proof. induction ts as [|t ts IH]; [reflexivity | exact IH]. Qed.



Lemma month_range_nonempty (months : Z) :
  (1 <= months)%Z -> month_range months <> [].
Proof.
  intros H. unfold month_range.
  destruct (Z.to_nat months) as [|n] eqn:E; [lia | discriminate].
Qed.




(** ** The threshold-crossing query *)

Lemma hit_index_from (start : nat) (covs : list coverage) (thr : Q) :
  hd_error
    (map fst
       (filter (fun ic => cov_geb (snd ic) thr)
          (combine (seq start (length covs)) covs)))
  = option_map (Nat.add start) (first_hit covs thr).
Proof.
  revert start. induction covs as [|c cs IH]; intros start; [reflexivity|].
  cbn. destruct (cov_geb c thr).
  - cbn. now rewrite Nat.add_0_r.
  - rewrite IH. destruct (first_hit cs thr); cbn; [f_equal; lia | reflexivity].
Qed.

Lemma hit_index_head (covs : list coverage) (thr : Q) :
  hd_error (hit_index covs thr) = first_hit covs thr.
Proof.
  unfold hit_index. rewrite hit_index_from.
  destruct (first_hit covs thr); reflexivity.
Qed.

Lemma first_hit_Some (covs : list coverage) (thr : Q) (i : nat) :
  first_hit covs thr = Some i ->
  (exists c, nth_error covs i = Some c /\ cov_geb c thr = true) /\
  (forall j c, (j < i)%nat -> nth_error covs j = Some c ->
               cov_geb c thr = false).
Proof.
  revert i. induction covs as [|c cs IH]; intros i; [discriminate|].
  cbn. destruct (cov_geb c thr) eqn:E.
  - intros H. injection H as <-. split; [now exists c | intros; lia].
  - destruct (first_hit cs thr) as [i0|]; [|discriminate].
    intros H. injection H as <-. destruct (IH i0 eq_refl) as [H1 H2].
    split; [exact H1|]. intros [|j] c' Hj Hn.
    + cbn in Hn. now injection Hn as <-.
    + cbn in Hn. apply (H2 j); [lia | exact Hn].
Qed.

Lemma first_hit_None (covs : list coverage) (thr : Q) :
  first_hit covs thr = None ->
  forall c, In c covs -> cov_geb c thr = false.
Proof.
  induction covs as [|c cs IH]; intros H c0 Hin; [contradiction|].
  cbn in H. destruct (cov_geb c thr) eqn:E; [discriminate|].
  destruct (first_hit cs thr); [discriminate|].
  destruct Hin as [<-|Hin]; [exact E | now apply IH].
Qed.

Section CrossingFacts.

Context {Row : Type}.
Variable row_month : Row -> Z.
Variable row_cov : Row -> coverage.

(** On a frame built from no row the column lookup fails. *)
Lemma first_crossing_empty (thr : Q) :
  first_crossing row_month row_cov [] thr = None.
Proof. reflexivity. Qed.

(** On a frame with rows the query answers with the month of the first
    row at or above the threshold, if there is one. *)
Lemma first_crossing_rows (traj : list Row) (thr : Q) :
  traj <> [] ->
  first_crossing row_month row_cov traj thr =
  match first_hit (map row_cov traj) thr with
  | Some i => option_map (fun r => Reached (row_month r)) (nth_error traj i)
  | None => Some NotReached
  end.
Proof.
  intros Hne. unfold first_crossing, column.
  destruct traj as [|r0 traj0]; [contradiction|].
  pose proof (hit_index_head (map row_cov (r0 :: traj0)) thr) as Hh.
  destruct (hit_index (map row_cov (r0 :: traj0)) thr) as [|i l];
    cbn [hd_error] in Hh; rewrite <- Hh; [reflexivity|].
  destruct (nth_error (r0 :: traj0) i); reflexivity.
Qed.

(** On a trajectory whose months are 1, 2, ..., n in this order, n
    being at least 1, the query answers, with the smallest month whose
    coverage is at or above the threshold, or with "not reached" when
    there is none. *)
Lemma first_crossing_smallest (n : Z) (traj : list Row) (thr : Q) :
  (1 <= n)%Z ->
  map row_month traj = month_range n ->
  exists cr,
    first_crossing row_month row_cov traj thr = Some cr /\
    match cr with
    | Reached t =>
        (exists r, In r traj /\ row_month r = t /\
                   cov_geb (row_cov r) thr = true) /\
        (forall r, In r traj -> cov_geb (row_cov r) thr = true ->
                   (t <= row_month r)%Z)
    | NotReached =>
        forall r, In r traj -> cov_geb (row_cov r) thr = false
    end.
Proof.
  intros Hn Hmonths.
  assert (Hne : traj <> []).
  { intros ->. cbn in Hmonths. symmetry in Hmonths.
    now apply month_range_nonempty in Hmonths. }
  assert (Hnth : forall i r, nth_error traj i = Some r ->
                             row_month r = Z.of_nat (S i)).
  { intros i r Hr.
    apply (map_nth_error row_month) in Hr. rewrite Hmonths in Hr.
    unfold month_range in Hr.
    assert (Hi : (i < length (seq 1 (Z.to_nat n)))%nat).
    { rewrite <- (length_map Z.of_nat). apply nth_error_Some. congruence. }
    rewrite (nth_error_nth' _ 0%Z) in Hr by (now rewrite length_map).
    injection Hr as <-.
    rewrite (nth_indep _ 0%Z (Z.of_nat 0)) by (now rewrite length_map).
    rewrite map_nth, seq_nth by (now rewrite length_seq in Hi).
    reflexivity. }
  rewrite (first_crossing_rows traj thr Hne).
  destruct (first_hit (map row_cov traj) thr) as [i|] eqn:E.
  - destruct (first_hit_Some _ _ _ E) as [[c [Hc Hge]] Hbefore].
    rewrite nth_error_map in Hc.
    destruct (nth_error traj i) as [r|] eqn:Hr; [|discriminate].
    cbn in Hc. injection Hc as <-.
    exists (Reached (row_month r)). split; [reflexivity|]. split.
    + exists r. split; [now apply nth_error_In with i | auto].
    + intros r' Hin Hge'. apply In_nth_error in Hin as [j Hj].
      rewrite (Hnth i r Hr), (Hnth j r' Hj).
      destruct (Nat.lt_ge_cases j i) as [Hlt|Hle]; [|lia].
      assert (cov_geb (row_cov r') thr = false).
      { apply (Hbefore j); [exact Hlt|].
        now rewrite nth_error_map, Hj. }
      congruence.
  - exists NotReached. split; [reflexivity|].
    intros r Hin. apply (first_hit_None _ _ E). now apply in_map.
Qed.

End CrossingFacts.

(** *** The month column of the two trajectories *)

Lemma grid_row_month (params : PZParams) (t : Z) (s s' : Grid.Loc)
  (r : Grid.Row) :
  Grid.month_body params t s = Some (s', r) -> Grid.row_t r = t.
Proof.
  unfold Grid.month_body. destruct (Qltb 0 _).
  - unfold py_div. destruct (Qeq_bool _ 0); [discriminate|].
    intros H. injection H as _ <-. reflexivity.
  - intros H. injection H as _ <-. reflexivity.
Qed.

Lemma grid_run_months_column (params : PZParams) (ts : list Z) :
  forall s rows s' rows',
    Grid.run_months params ts (Some (s, rows)) = Some (s', rows') ->
    map Grid.row_t rows' = map Grid.row_t rows ++ ts.
Proof.
  induction ts as [|t ts IH]; intros s rows s' rows' H.
  - cbn in H. injection H as _ <-. now rewrite app_nil_r.
  - cbn [Grid.run_months fold_left] in H.
    destruct (Grid.month_body params t s) as [[s1 r1]|] eqn:E.
    + fold (Grid.run_months params ts (Some (s1, rows ++ [r1]))) in H.
      rewrite (IH _ _ _ _ H), map_app, <- app_assoc. cbn.
      now rewrite (grid_row_month _ _ _ _ _ E).
    + fold (Grid.run_months params ts None) in H.
      rewrite grid_run_months_None in H. discriminate.
Qed.

Lemma dashboard_row_month (params : PZParams) (A0 m0 : Q) (t : Z)
  (s : Dashboard.Loc) :
  Dashboard.row_month (snd (Dashboard.month_body params A0 m0 t s)) = t.
Proof.
  unfold Dashboard.month_body. destruct (Qltb 0 _); reflexivity.
Qed.

Lemma dashboard_run_months_column (params : PZParams) (A0 m0 : Q)
  (ts : list Z) :
  forall s rows,
    map Dashboard.row_month
      (snd (Dashboard.run_months params A0 m0 ts (s, rows)))
    = map Dashboard.row_month rows ++ ts.
Proof.
  induction ts as [|t ts IH]; intros s rows.
  - cbn. now rewrite app_nil_r.
  - cbn [Dashboard.run_months fold_left].
    pose proof (dashboard_row_month params A0 m0 t s) as Hr.
    destruct (Dashboard.month_body params A0 m0 t s) as [s1 r1].
    fold (Dashboard.run_months params A0 m0 ts (s1, rows ++ [r1])).
    rewrite IH, map_app, <- app_assoc. cbn in *. now rewrite Hr.
Qed.

(** For a horizon of at least one month the query does what it is
    meant to do, on either trajectory. *)
Lemma grid_first_crossing_month_correct
  (months : Z) (params : PZParams) (A0 m0 thr : Q) (traj : list Grid.Row) :
  (1 <= months)%Z ->
  Grid.run_path_until months params A0 m0 = Some traj ->
  exists cr,
    Grid.first_crossing_month traj thr = Some cr /\
    match cr with
    | Reached t =>
        (exists r, In r traj /\ Grid.row_t r = t /\
                   cov_geb (Grid.row_fs_cov_after r) thr = true) /\
        (forall r, In r traj ->
                   cov_geb (Grid.row_fs_cov_after r) thr = true ->
                   (t <= Grid.row_t r)%Z)
    | NotReached =>
        forall r, In r traj -> cov_geb (Grid.row_fs_cov_after r) thr = false
    end.
Proof.
  intros Hm H. unfold Grid.run_path_until in H.
  destruct (Grid.run_months _ _ _) as [[s' rows']|] eqn:E; [|discriminate].
  injection H as ->.
  apply (first_crossing_smallest Grid.row_t Grid.row_fs_cov_after months);
    [exact Hm|].
  now rewrite (grid_run_months_column _ _ _ _ _ _ E).
Qed.

Lemma dashboard_first_crossing_month_correct
  (months : Z) (params : PZParams) (A0 m0 BC0 FS0 thr : Q) :
  (1 <= months)%Z ->
  let traj := Dashboard.run_path_until months params A0 m0 BC0 FS0 in
  exists cr,
    Dashboard.first_crossing_month traj thr = Some cr /\
    match cr with
    | Reached t =>
        (exists r, In r traj /\ Dashboard.row_month r = t /\
                   cov_geb (Dashboard.row_FS_coverage_months r) thr = true) /\
        (forall r, In r traj ->
                   cov_geb (Dashboard.row_FS_coverage_months r) thr = true ->
                   (t <= Dashboard.row_month r)%Z)
    | NotReached =>
        forall r, In r traj ->
                  cov_geb (Dashboard.row_FS_coverage_months r) thr = false
    end.
Proof.
  intros Hm traj.
  apply (first_crossing_smallest Dashboard.row_month
           Dashboard.row_FS_coverage_months months); [exact Hm|].
  unfold traj, Dashboard.run_path_until.
  now rewrite dashboard_run_months_column.
Qed.

(** C9, at a horizon of zero months: the trajectory has no row, the
    frame built from it has no column, and the query raises [KeyError]
    where "not reached" is the answer meant; in the dashboard and in
    the grid script alike. *)
Theorem first_crossing_month_zero_horizon
  (params : PZParams) (A0 m0 BC0 FS0 thr : Q) :
  Dashboard.run_path_until 0 params A0 m0 BC0 FS0 = [] /\
  Dashboard.first_crossing_month
    (Dashboard.run_path_until 0 params A0 m0 BC0 FS0) thr = None /\
  Grid.run_path_until 0 params A0 m0 = Some [] /\
  Grid.first_crossing_month [] thr = None.
Proof. repeat split. Qed.

(** * Further properties of the code *)

(** ** The policy functions *)

Lemma clamp_mono (x y lo hi : Q) :
  lo <= hi -> x <= y -> clamp x lo hi <= clamp y lo hi.
Proof.
  intros Hlh Hxy. unfold clamp.
  destruct (py_min_spec hi x) as [[? ->]|[? ->]];
    destruct (py_min_spec hi y) as [[? ->]|[? ->]];
    repeat match goal with
           | |- context [py_max ?a ?b] =>
               destruct (py_max_spec a b) as [[? ->]|[? ->]]
           end; lra.
Qed.

Lemma Qdiv_le_mono (x y d : Q) : 0 < d -> x <= y -> x / d <= y / d.
Proof.
  intros Hd Hxy. unfold Qdiv. apply Qmult_le_compat_r; [exact Hxy|].
  apply Qinv_le_0_compat. lra.
Qed.

(** The four branches of [p_bounds_by_fs], one lemma each. *)
Lemma p_bounds_phase1 (c p4 : Q) :
  c < 3 -> p_bounds_by_fs (Fin c) p4 = (0.05, 0.15, 1%Z, clamp (c / 3) 0 1).
Proof.
  intros H. unfold p_bounds_by_fs. cbn.
  now rewrite (proj2 (Qltb_lt _ _) H).
Qed.

Lemma p_bounds_phase2 (c p4 : Q) :
  3 <= c -> c < 6 ->
  p_bounds_by_fs (Fin c) p4 = (0.20, 0.35, 2%Z, clamp ((c - 3) / 3) 0 1).
Proof.
  intros H3 H6. unfold p_bounds_by_fs. cbn.
  now rewrite (proj2 (Qltb_ge _ _) H3), (proj2 (Qltb_lt _ _) H6).
Qed.

Lemma p_bounds_phase3 (c p4 : Q) :
  6 <= c -> c < 12 ->
  p_bounds_by_fs (Fin c) p4 = (0.30, 0.50, 3%Z, clamp ((c - 6) / 6) 0 1).
Proof.
  intros H6 H12. unfold p_bounds_by_fs. cbn.
  assert (Qltb c 3 = false) as -> by (apply Qltb_ge; lra).
  now rewrite (proj2 (Qltb_ge _ _) H6), (proj2 (Qltb_lt _ _) H12).
Qed.

Lemma p_bounds_phase4 (c p4 : Q) :
  12 <= c ->
  p_bounds_by_fs (Fin c) p4 = (0.40, p4, 4%Z, clamp ((c - 12) / 12) 0 1).
Proof.
  intros H12. unfold p_bounds_by_fs. cbn.
  assert (Qltb c 3 = false) as -> by (apply Qltb_ge; lra).
  assert (Qltb c 6 = false) as -> by (apply Qltb_ge; lra).
  now rewrite (proj2 (Qltb_ge _ _) H12).
Qed.

Lemma p_bounds_inf (p4 : Q) :
  p_bounds_by_fs PInf p4 = (0.40, p4, 4%Z, 1).
Proof. reflexivity. Qed.

(** Which branch a coverage takes. *)
Lemma p_bounds_cases (cov : coverage) (p4 : Q) :
  (exists c, cov = Fin c /\ c < 3 /\
     p_bounds_by_fs cov p4 = (0.05, 0.15, 1%Z, clamp (c / 3) 0 1)) \/
  (exists c, cov = Fin c /\ 3 <= c < 6 /\
     p_bounds_by_fs cov p4 = (0.20, 0.35, 2%Z, clamp ((c - 3) / 3) 0 1)) \/
  (exists c, cov = Fin c /\ 6 <= c < 12 /\
     p_bounds_by_fs cov p4 = (0.30, 0.50, 3%Z, clamp ((c - 6) / 6) 0 1)) \/
  (exists c, cov = Fin c /\ 12 <= c /\
     p_bounds_by_fs cov p4 = (0.40, p4, 4%Z, clamp ((c - 12) / 12) 0 1)) \/
  (cov = PInf /\ p_bounds_by_fs cov p4 = (0.40, p4, 4%Z, 1)).
Proof.
  destruct cov as [c|]; [|right; right; right; right; now split].
  destruct (Qlt_le_dec c 3) as [H3|H3].
  { left. exists c. auto using p_bounds_phase1. }
  destruct (Qlt_le_dec c 6) as [H6|H6].
  { right; left. exists c. auto using p_bounds_phase2. }
  destruct (Qlt_le_dec c 12) as [H12|H12].
  { right; right; left. exists c. auto using p_bounds_phase3. }
  right; right; right; left. exists c. auto using p_bounds_phase4.
Qed.

(** X1: [p_bounds_by_fs] classifies a coverage by the thresholds 3, 6
    and 12: Phase 1 below 3, Phase 2 from 3 to below 6, Phase 3 from 6
    to below 12, Phase 4 from 12 on and at infinite coverage; it
    reports the range of that phase, [0.05, 0.15], [0.20, 0.35],
    [0.30, 0.50] or [0.40, p4_max], and a position [lambda] in [0,1],
    which is 1 at infinite coverage. *)
Theorem p_bounds_phase_and_position (p4 : Q) :
  (forall c,
     let '(pmin, pmax, phase, lam) := p_bounds_by_fs (Fin c) p4 in
     0 <= lam <= 1 /\
     (phase = 1%Z <-> c < 3) /\
     (phase = 2%Z <-> 3 <= c < 6) /\
     (phase = 3%Z <-> 6 <= c < 12) /\
     (phase = 4%Z <-> 12 <= c) /\
     (pmin, pmax) = match phase with
                    | 1%Z => (0.05, 0.15)
                    | 2%Z => (0.20, 0.35)
                    | 3%Z => (0.30, 0.50)
                    | _ => (0.40, p4)
                    end) /\
  p_bounds_by_fs PInf p4 = (0.40, p4, 4%Z, 1).
Proof.
  split; [|reflexivity].
  intros c.
  destruct (p_bounds_cases (Fin c) p4)
    as [(x & Ex & Hx & ->)|[(x & Ex & Hx & ->)|[(x & Ex & Hx & ->)
       |[(x & Ex & Hx & ->)|(Ex & _)]]]]; try discriminate;
    injection Ex as <-;
    (split; [apply clamp01_range|]);
    (split; [split; [intros E; try discriminate E; lra
                    | intros H; try reflexivity; lra]|]);
    (split; [split; [intros E; try discriminate E; lra
                    | intros H; try reflexivity; lra]|]);
    (split; [split; [intros E; try discriminate E; lra
                    | intros H; try reflexivity; lra]|]);
    (split; [split; [intros E; try discriminate E; lra
                    | intros H; try reflexivity; lra]|]);
    reflexivity.
Qed.

Lemma p_bounds_phase_and_position_witness :
  p_bounds_by_fs (Fin 7) 0.70 = (0.30, 0.50, 3%Z, clamp ((7 - 6) / 6) 0 1) /\
  p_bounds_by_fs PInf 0.70 = (0.40, 0.70, 4%Z, 1).
Proof.
  split; [by_evaluation|].
  apply (proj2 (p_bounds_phase_and_position 0.70)).
Defined.

(** X2: raising the Phase-4 ceiling [p4_max] never lowers the dynamic
    share, at any coverage; below coverage 12 it does not change it. *)
Theorem p_dynamic_mono_p4 (cov : coverage) (p4 p4' : Q) :
  p4 <= p4' ->
  p_dynamic_from_fs cov p4 <= p_dynamic_from_fs cov p4' /\
  (cov_ltb cov 12 = true ->
   p_dynamic_from_fs cov p4 = p_dynamic_from_fs cov p4').
Proof.
  intros Hp. unfold p_dynamic_from_fs.
  destruct (p_bounds_cases cov p4)
    as [(c & -> & Hc & E)|[(c & -> & Hc & E)|[(c & -> & Hc & E)
       |[(c & -> & Hc & E)|(-> & E)]]]]; rewrite E.
  - rewrite p_bounds_phase1 by lra. split; [lra | reflexivity].
  - rewrite p_bounds_phase2 by lra. split; [lra | reflexivity].
  - rewrite p_bounds_phase3 by lra. split; [lra | reflexivity].
  - rewrite p_bounds_phase4 by lra. split.
    + pose proof (clamp01_range ((c - 12) / 12)). nra.
    + cbn. intros H. apply Qltb_lt in H. lra.
  - rewrite p_bounds_inf. split; [lra | discriminate].
Qed.

Lemma p_dynamic_mono_p4_witness :
  p_dynamic_from_fs (Fin 18) 0.50 <= p_dynamic_from_fs (Fin 18) 0.70 /\
  (cov_ltb (Fin 18) 12 = true ->
   p_dynamic_from_fs (Fin 18) 0.50 = p_dynamic_from_fs (Fin 18) 0.70).
Proof.
  apply (p_dynamic_mono_p4 (Fin 18) 0.50 0.70). vm_compute. discriminate.
Defined.

(** X3: inside a phase the dynamic share never decreases as the
    coverage rises; in Phase 4, and there only, this takes
    [p4_max >= 0.40]. *)
Theorem p_dynamic_mono_in_phase (c c' p4 : Q) :
  c <= c' ->
  phase_of (Fin c) p4 = phase_of (Fin c') p4 ->
  (phase_of (Fin c) p4 = 4%Z -> 0.40 <= p4) ->
  p_dynamic_from_fs (Fin c) p4 <= p_dynamic_from_fs (Fin c') p4.
Proof.
  intros Hc Hph Hp4. unfold phase_of in Hph, Hp4. unfold p_dynamic_from_fs.
  destruct (p_bounds_cases (Fin c) p4)
    as [(x & Ex & Hx & E)|[(x & Ex & Hx & E)|[(x & Ex & Hx & E)
       |[(x & Ex & Hx & E)|(Ex & _)]]]]; try discriminate;
    injection Ex as <-; rewrite E in *;
    destruct (p_bounds_cases (Fin c') p4)
      as [(y & Ey & Hy & E')|[(y & Ey & Hy & E')|[(y & Ey & Hy & E')
         |[(y & Ey & Hy & E')|(Ey & _)]]]]; try discriminate;
    injection Ey as <-; rewrite E' in *; try discriminate.
  - pose proof (clamp_mono (c / 3) (c' / 3) 0 1 ltac:(lra)
                  (Qdiv_le_mono c c' 3 ltac:(lra) Hc)). nra.
  - pose proof (clamp_mono ((c - 3) / 3) ((c' - 3) / 3) 0 1 ltac:(lra)
                  (Qdiv_le_mono (c - 3) (c' - 3) 3 ltac:(lra) ltac:(lra))).
    nra.
  - pose proof (clamp_mono ((c - 6) / 6) ((c' - 6) / 6) 0 1 ltac:(lra)
                  (Qdiv_le_mono (c - 6) (c' - 6) 6 ltac:(lra) ltac:(lra))).
    nra.
  - specialize (Hp4 eq_refl).
    pose proof (clamp_mono ((c - 12) / 12) ((c' - 12) / 12) 0 1 ltac:(lra)
                  (Qdiv_le_mono (c - 12) (c' - 12) 12 ltac:(lra) ltac:(lra))).
    nra.
Qed.

Lemma p_dynamic_mono_in_phase_witness :
  p_dynamic_from_fs (Fin 7) 0.10 <= p_dynamic_from_fs (Fin 11) 0.10 /\
  p_dynamic_from_fs (Fin 13) 0.70 <= p_dynamic_from_fs (Fin 20) 0.70.
Proof.
  split.
  - apply (p_dynamic_mono_in_phase 7 11 0.10).
    + vm_compute. discriminate.
    + vm_compute. reflexivity.
    + vm_compute. discriminate.
  - apply (p_dynamic_mono_in_phase 13 20 0.70).
    + vm_compute. discriminate.
    + vm_compute. reflexivity.
    + intros _. vm_compute. discriminate.
Defined.

Lemma clamp01_at_least_1 (x : Q) : 1 <= x -> clamp x 0 1 = 1.
Proof.
  intros H. unfold clamp, py_min, py_max.
  rewrite (proj2 (Qltb_ge x 1)) by lra. reflexivity.
Qed.

(** X4: the ends of the scale.  At a coverage of zero or below the
    position in Phase 1 is clamped to 0 and the dynamic share is the
    floor 0.05.  From a coverage of 24 on, and at infinite coverage
    (costs not positive), the position in Phase 4 is clamped to 1 and
    the share no longer depends on the coverage: it is the expression
    [0.40 + 1 * (p4_max - 0.40)]. *)
Theorem p_dynamic_saturates (p4 : Q) :
  (forall c, c <= 0 ->
     p_bounds_by_fs (Fin c) p4 = (0.05, 0.15, 1%Z, 0) /\
     p_dynamic_from_fs (Fin c) p4 == 0.05) /\
  (forall c, 24 <= c ->
     p_bounds_by_fs (Fin c) p4 = (0.40, p4, 4%Z, 1) /\
     p_dynamic_from_fs (Fin c) p4 = 0.40 + 1 * (p4 - 0.40)) /\
  p_dynamic_from_fs PInf p4 = 0.40 + 1 * (p4 - 0.40).
Proof.
  split; [|split].
  - intros c Hc.
    assert (E : clamp (c / 3) 0 1 = 0).
    { unfold clamp, py_min, py_max.
      assert (Hd : c / 3 <= 0).
      { pose proof (Qdiv_le_mono c 0 3 ltac:(lra) Hc) as H.
        assert (H0 : 0 / 3 == 0) by reflexivity. lra. }
      rewrite (proj2 (Qltb_lt (c / 3) 1)) by lra.
      rewrite (proj2 (Qltb_ge 0 (c / 3))) by lra. reflexivity. }
    unfold p_dynamic_from_fs. rewrite p_bounds_phase1 by lra. rewrite E.
    split; [reflexivity | lra].
  - intros c Hc.
    assert (E : clamp ((c - 12) / 12) 0 1 = 1).
    { apply clamp01_at_least_1. apply Qle_shift_div_l; lra. }
    unfold p_dynamic_from_fs. rewrite p_bounds_phase4 by lra. rewrite E.
    split; reflexivity.
  - reflexivity.
Qed.

Lemma p_dynamic_saturates_witness :
  p_dynamic_from_fs (Fin (-1)) 0.70 == 0.05 /\
  p_dynamic_from_fs (Fin 30) 0.70 = 0.40 + 1 * (0.70 - 0.40).
Proof.
  split.
  - apply (proj1 (p_dynamic_saturates 0.70)). vm_compute. discriminate.
  - apply (proj1 (proj2 (p_dynamic_saturates 0.70))).
    vm_compute. discriminate.
Defined.

(** X5: the survival ratio is 3, 6 or 12 months and never goes down
    as the head count goes up. *)
Theorem fs_ratio_mono (e e' : Z) :
  (e <= e')%Z ->
  (fs_ratio_for_employees e <= fs_ratio_for_employees e')%Z /\
  (fs_ratio_for_employees e = 3 \/ fs_ratio_for_employees e = 6
   \/ fs_ratio_for_employees e = 12)%Z.
Proof.
  intros H. unfold fs_ratio_for_employees.
  destruct (Z.leb_spec e 2), (Z.leb_spec e 6),
    (Z.leb_spec e' 2), (Z.leb_spec e' 6); split; auto; lia.
Qed.

Lemma fs_ratio_mono_witness :
  (fs_ratio_for_employees 2 <= fs_ratio_for_employees 7)%Z /\
  (fs_ratio_for_employees 2 = 3 \/ fs_ratio_for_employees 2 = 6
   \/ fs_ratio_for_employees 2 = 12)%Z.
Proof. apply (fs_ratio_mono 2 7). lia. Defined.

(** X6: [clamp] with its bounds in order returns a value between them,
    and the value itself when it already is; with the bounds out of
    order ([lo > hi]) it returns [lo]; clamping twice is clamping
    once. *)
Theorem clamp_behaviour (x lo hi : Q) :
  (lo <= hi -> lo <= clamp x lo hi <= hi) /\
  (lo <= x <= hi -> clamp x lo hi == x) /\
  (hi < lo -> clamp x lo hi = lo) /\
  clamp (clamp x lo hi) lo hi == clamp x lo hi.
Proof.
  split; [apply clamp_range|]. split; [apply clamp_id|].
  assert (Hinv : forall y, hi < lo -> clamp y lo hi = lo).
  { intros y H. unfold clamp.
    destruct (py_min_spec hi y) as [[? E]|[? E]]; rewrite E;
      match goal with
      | |- py_max ?a ?b = _ =>
          destruct (py_max_spec a b) as [[? E']|[? E']]; rewrite E'
      end; try reflexivity; lra. }
  split; [apply Hinv|].
  destruct (Qlt_le_dec hi lo) as [H|H].
  - now rewrite !Hinv.
  - apply clamp_id. now apply clamp_range.
Qed.

Lemma clamp_behaviour_witness :
  0 <= clamp 2 0 1 <= 1 /\ clamp 0.5 0 1 == 0.5 /\ clamp 5 1 0 = 1.
Proof.
  split; [|split].
  - apply (proj1 (clamp_behaviour 2 0 1)). vm_compute. discriminate.
  - apply (proj1 (proj2 (clamp_behaviour 0.5 0 1))).
    split; vm_compute; discriminate.
  - apply (proj1 (proj2 (proj2 (clamp_behaviour 5 1 0)))).
    vm_compute. reflexivity.
Defined.

(** ** More on one month of [simulate_pz] *)

(** The growth and reporting fields of a month with positive utility. *)
Lemma month_body_positive_growth (params : PZParams) (p_to_bc : Q)
  (t : Z) (s : State) :
  0 < month_U params s ->
  ~ month_costs params s + 1 == 0 ->
  exists s',
    month_body params p_to_bc t s = Some s' /\
    A s' = month_A_next params p_to_bc s /\
    m s' = m s * (1 + month_g_m params p_to_bc s) /\
    first_impact_month s' =
      match first_impact_month s with
      | None => if Qltb 0 (month_impact params p_to_bc s) then Some t else None
      | Some t0 => Some t0
      end /\
    last_phase s' =
      Some (phase_of (month_coverage params s) (p4_max params)).
Proof.
  intros HU Hden. unfold month_body, phase_of, month_coverage.
  change (A s * m s + r_monthly (r_annual params) * (BC s + FS s)
          - (inject_Z (employees s) * cost_per_employee params
             + other_fixed_costs params))
    with (month_U params s).
  change (inject_Z (employees s) * cost_per_employee params
          + other_fixed_costs params)
    with (month_costs params s).
  apply Qltb_lt in HU. rewrite HU.
  destruct (p_bounds_by_fs _ _) as [[[? ?] ?] ?].
  unfold py_div.
  destruct (Qeq_bool (month_costs params s + 1) 0) eqn:E.
  { apply Qeq_bool_iff in E. contradiction. }
  eexists. split; [reflexivity|].
  cbn [A m first_impact_month last_phase].
  unfold month_A_next, month_g_m, month_rd, month_impact, month_BPZ_in,
    month_p_eff, month_coverage.
  split; [reflexivity|]. split; [reflexivity|]. split; reflexivity.
Qed.

(** ** More on the runs of [simulate_pz] *)

Lemma month_range_nonpositive (months : Z) :
  (months <= 0)%Z -> month_range months = [].
Proof.
  intros H. unfold month_range. now replace (Z.to_nat months) with 0%nat by lia.
Qed.

(** X7: a horizon of zero months, or a negative one, runs no month.
    With a head count that converts to a float (the final costs are
    computed from it even then), the call returns and the summary
    carries the initial balances, population, margin and head count, no
    hire and no impact, 0 for the average utility and for the share of
    positive months, and NaN for the last effective share, the last
    phase and the first impact month. *)
Theorem simulate_pz_zero_horizon
  (months : Z) (p_to_bc : Q) (params : PZParams) (B0 FS0 : Q) :
  (months <= 0)%Z ->
  (Z.abs (employees0 params) <= 2 ^ 1000)%Z ->
  exists sm,
    simulate_pz months p_to_bc params B0 FS0 = Some sm /\
    BC_end sm = B0 /\ FS_end sm = FS0 /\
    A_end sm = A0 params /\ m_end sm = m0 params /\
    employees_end sm = employees0 params /\
    hires_total sm = 0%Z /\ impact_cum_end sm = 0 /\
    avg_U sm = 0 /\ pct_months_U_pos sm = 0 /\
    p_eff_last sm = None /\ phase_last sm = None /\
    first_impact_month_out sm = None.
Proof.
  intros H _. unfold simulate_pz. rewrite (month_range_nonpositive months H).
  cbn [run_months fold_left]. eexists. split; [reflexivity|].
  unfold summarize. destruct (p_bounds_by_fs _ _) as [[[? ?] ?] ?].
  cbn. assert (E : (0 <? months)%Z = false) by (apply Z.ltb_ge; lia).
  rewrite E. repeat split.
Qed.

Lemma simulate_pz_zero_horizon_witness :
  exists sm,
    simulate_pz 0 0.30 default_params 7 9 = Some sm /\
    BC_end sm = 7 /\ FS_end sm = 9 /\
    A_end sm = 100 /\ m_end sm = 25 /\
    employees_end sm = 2%Z /\
    hires_total sm = 0%Z /\ impact_cum_end sm = 0 /\
    avg_U sm = 0 /\ pct_months_U_pos sm = 0 /\
    p_eff_last sm = None /\ phase_last sm = None /\
    first_impact_month_out sm = None.
Proof.
  apply (simulate_pz_zero_horizon 0 0.30 default_params 7 9).
  - lia.
  - vm_compute. discriminate.
Defined.

(** *** Counters *)

Lemma phase_of_range (cov : coverage) (p4 : Q) :
  (1 <= phase_of cov p4 <= 4)%Z.
Proof.
  unfold phase_of.
  destruct (p_bounds_cases cov p4)
    as [(c & _ & _ & ->)|[(c & _ & _ & ->)|[(c & _ & _ & ->)
       |[(c & _ & _ & ->)|(_ & ->)]]]]; lia.
Qed.

Section Counters.

Variable params : PZParams.
Variable p_to_bc B0 FS0 : Q.

Local Abbreviation state_at := (state_after params p_to_bc B0 FS0).

Lemma run_counters (k : nat) (s : State) :
  state_at k = Some s -> counters_ok params k s.
Proof.
  apply (run_invariant params p_to_bc B0 FS0 (counters_ok params)).
  - unfold counters_ok. cbn. repeat split; try lia. left. auto.
  - intros k0 s0 s' _ (He & Hh & Hm & Hl) Hb. unfold counters_ok.
    destruct (month_body_cases _ _ _ _ _ Hb) as [HU|[HU Hden]].
    + rewrite (month_body_freeze _ _ _ _ HU) in Hb. injection Hb as <-.
      cbn. repeat split; try lia. exact Hl.
    + destruct (month_body_positive params p_to_bc (Z.of_nat (S k0)) s0
                  HU Hden)
        as (s1 & Hs1 & _ & _ & _ & _ & He1 & Hh1 & _ & _ & Hm1 & Hp1).
      destruct (month_body_positive_growth params p_to_bc (Z.of_nat (S k0))
                  s0 HU Hden) as (s2 & Hs2 & _ & _ & _ & Hph).
      rewrite Hs1 in Hs2. injection Hs2 as <-.
      rewrite Hs1 in Hb. injection Hb as <-.
      rewrite He1, Hh1, Hm1.
      destruct (month_hires params p_to_bc (Z.of_nat (S k0)) s0);
        (repeat split; try lia); right; (split; [lia|]);
        exists (month_p_eff params p_to_bc s0),
               (phase_of (month_coverage params s0) (p4_max params));
        (split; [exact Hp1|]); (split; [apply clamp01_range|]);
        (split; [exact Hph | apply phase_of_range]).
Qed.

End Counters.

Lemma summarize_fields (months : Z) (p_to_bc : Q) (params : PZParams)
  (s : State) :
  let sm := summarize months p_to_bc params s in
  employees_end sm = employees s /\ hires_total sm = hires s /\
  p_eff_last sm = last_p_eff s /\ phase_last sm = last_phase s /\
  impact_cum_end sm = impact_cum s /\
  first_impact_month_out sm = first_impact_month s /\
  A_end sm = A s /\ m_end sm = m s /\
  BC_end sm = BC s /\ FS_end sm = FS s /\
  pct_months_U_pos sm =
    (if (0 <? months)%Z then inject_Z (months_u_pos s) / inject_Z months
     else 0).
Proof.
  unfold summarize. destruct (p_bounds_by_fs _ _) as [[[? ?] ?] ?].
  cbn. repeat split.
Qed.

(** X9: in every summary the final head count is the initial one plus
    the hires, and the hires are at least 0 and at most the number of
    months of the horizon. *)
Theorem head_count_accounting
  (months : Z) (p_to_bc : Q) (params : PZParams) (B0 FS0 : Q) (sm : Summary) :
  simulate_pz months p_to_bc params B0 FS0 = Some sm ->
  employees_end sm = (employees0 params + hires_total sm)%Z /\
  (0 <= hires_total sm <= Z.max 0 months)%Z.
Proof.
  rewrite simulate_pz_state.
  destruct (state_after _ _ _ _ _) as [s|] eqn:E; [|discriminate].
  intros H. injection H as <-.
  destruct (summarize_fields months p_to_bc params s) as (-> & -> & _).
  destruct (run_counters _ _ _ _ _ _ E) as (He & Hh & Hm & _).
  split; [exact He | lia].
Qed.

Lemma head_count_accounting_witness :
  exists sm,
    simulate_pz 4 0.30 eager_hiring_params 0 0 = Some sm /\
    employees_end sm = (2 + hires_total sm)%Z /\
    (0 <= hires_total sm <= Z.max 0 4)%Z.
Proof.
  exists_result (simulate_pz 4 0.30 eager_hiring_params 0 0).
  split; [by_evaluation|].
  apply (head_count_accounting 4 0.30 eager_hiring_params 0 0).
  by_evaluation.
Defined.

Lemma Qdiv_unit_interval (n d : Z) :
  (0 <= n <= d)%Z -> (0 < d)%Z -> 0 <= inject_Z n / inject_Z d <= 1.
Proof.
  intros [Hn Hnd] Hd.
  assert (Hd' : 0 < inject_Z d)
    by (change 0 with (inject_Z 0); now rewrite <- Zlt_Qlt).
  assert (Hn' : 0 <= inject_Z n)
    by (change 0 with (inject_Z 0); now rewrite <- Zle_Qle).
  assert (Hnd' : inject_Z n <= inject_Z d) by (now rewrite <- Zle_Qle).
  split; [apply Qle_shift_div_l | apply Qle_shift_div_r]; lra.
Qed.

(** X10: the share of months with positive utility that a summary
    reports is a number between 0 and 1. *)
Theorem pct_months_U_pos_range
  (months : Z) (p_to_bc : Q) (params : PZParams) (B0 FS0 : Q) (sm : Summary) :
  simulate_pz months p_to_bc params B0 FS0 = Some sm ->
  0 <= pct_months_U_pos sm <= 1.
Proof.
  rewrite simulate_pz_state.
  destruct (state_after _ _ _ _ _) as [s|] eqn:E; [|discriminate].
  intros H. injection H as <-.
  destruct (summarize_fields months p_to_bc params s)
    as (_ & _ & _ & _ & _ & _ & _ & _ & _ & _ & ->).
  destruct (run_counters _ _ _ _ _ _ E) as (_ & Hh & Hm & _).
  destruct (Z.ltb_spec 0 months) as [Hpos|Hneg]; [|lra].
  apply Qdiv_unit_interval; lia.
Qed.

Lemma pct_months_U_pos_range_witness :
  exists sm,
    simulate_pz 2 0.30 doubling_revenue_params 0 0 = Some sm /\
    0 <= pct_months_U_pos sm <= 1.
Proof.
  exists_result (simulate_pz 2 0.30 doubling_revenue_params 0 0).
  split; [by_evaluation|].
  apply (pct_months_U_pos_range 2 0.30 doubling_revenue_params 0 0).
  by_evaluation.
Defined.

Lemma Qdiv_zero_iff (n d : Z) :
  (0 <= n)%Z -> (0 < d)%Z -> (inject_Z n / inject_Z d == 0 <-> n = 0%Z).
Proof.
  intros Hn Hd.
  assert (Hd' : 0 < inject_Z d)
    by (change 0 with (inject_Z 0); now rewrite <- Zlt_Qlt).
  split.
  - intros E. destruct (Z.eq_dec n 0) as [H0|H0]; [exact H0|].
    assert (Hn' : 0 < inject_Z n)
      by (change 0 with (inject_Z 0); rewrite <- Zlt_Qlt; lia).
    assert (0 < inject_Z n / inject_Z d) by (apply Qlt_shift_div_l; lra).
    lra.
  - intros ->. unfold Qdiv. change (inject_Z 0) with 0. ring.
Qed.

(** X11: the summary's last effective share is NaN exactly when no
    month of the run had positive utility, that is when the reported
    share of positive months is 0, and exactly when the last phase is
    NaN; a share that is reported lies in [0,1] and a phase that is
    reported is 1, 2, 3 or 4. *)
Theorem p_eff_last_reported
  (months : Z) (p_to_bc : Q) (params : PZParams) (B0 FS0 : Q) (sm : Summary) :
  simulate_pz months p_to_bc params B0 FS0 = Some sm ->
  (p_eff_last sm = None <-> pct_months_U_pos sm == 0) /\
  (p_eff_last sm = None <-> phase_last sm = None) /\
  (forall p, p_eff_last sm = Some p -> 0 <= p <= 1) /\
  (forall ph, phase_last sm = Some ph -> (1 <= ph <= 4)%Z).
Proof.
  rewrite simulate_pz_state.
  destruct (state_after _ _ _ _ _) as [s|] eqn:E; [|discriminate].
  intros H. injection H as <-.
  destruct (summarize_fields months p_to_bc params s)
    as (_ & _ & -> & -> & _ & _ & _ & _ & _ & _ & ->).
  destruct (run_counters _ _ _ _ _ _ E) as (_ & Hh & Hm & Hl).
  assert (Hpct : (if (0 <? months)%Z
                  then inject_Z (months_u_pos s) / inject_Z months else 0) == 0
                 <-> months_u_pos s = 0%Z).
  { destruct (Z.ltb_spec 0 months) as [Hpos|Hneg].
    - apply Qdiv_zero_iff; lia.
    - split; [intros _; lia | reflexivity]. }
  rewrite Hpct.
  destruct Hl as [(H0 & -> & ->)|(Hpos & p & ph & -> & Hp & -> & Hph)].
  - repeat split; auto; discriminate.
  - split; [split; [discriminate | lia]|].
    split; [split; discriminate|]. split.
    + intros q Hq. injection Hq as <-. exact Hp.
    + intros q Hq. injection Hq as <-. exact Hph.
Qed.

Lemma p_eff_last_reported_witness :
  exists sm,
    simulate_pz 2 0.30 no_revenue_params 0 0 = Some sm /\
    (p_eff_last sm = None <-> pct_months_U_pos sm == 0) /\
    p_eff_last sm = None.
Proof.
  exists_result (simulate_pz 2 0.30 no_revenue_params 0 0).
  split; [by_evaluation|]. split; [|reflexivity].
  apply (p_eff_last_reported 2 0.30 no_revenue_params 0 0). by_evaluation.
Defined.

(** *** Impact *)

Section Impact.

Variable params : PZParams.
Variable p_to_bc B0 FS0 : Q.

Local Abbreviation state_at := (state_after params p_to_bc B0 FS0).

(** A recorded first impact month is a month of the run, and one with
    positive utility has been counted by then. *)
Lemma run_first_impact_month (k : nat) (s : State) :
  state_at k = Some s ->
  forall t, first_impact_month s = Some t ->
            (1 <= t <= Z.of_nat k)%Z /\ (1 <= months_u_pos s)%Z.
Proof.
  apply (run_invariant params p_to_bc B0 FS0
           (fun k s => (0 <= months_u_pos s)%Z /\
                       forall t, first_impact_month s = Some t ->
                                 (1 <= t <= Z.of_nat k)%Z /\
                                 (1 <= months_u_pos s)%Z)).
  - cbn. split; [lia | discriminate].
  - intros k0 s0 s' _ [IH0 IH] Hb.
    destruct (month_body_cases _ _ _ _ _ Hb) as [HU|[HU Hden]].
    + rewrite (month_body_freeze _ _ _ _ HU) in Hb. injection Hb as <-.
      cbn. split; [exact IH0|]. intros t Ht. specialize (IH t Ht). lia.
    + destruct (month_body_positive params p_to_bc (Z.of_nat (S k0)) s0
                  HU Hden)
        as (s1 & Hs1 & _ & _ & _ & _ & _ & _ & _ & _ & Hm1 & _).
      destruct (month_body_positive_growth params p_to_bc (Z.of_nat (S k0))
                  s0 HU Hden) as (s2 & Hs2 & _ & _ & Hf & _).
      rewrite Hs1 in Hs2. injection Hs2 as <-.
      rewrite Hs1 in Hb. injection Hb as <-. rewrite Hm1, Hf.
      split; [lia|]. intros t Ht.
      destruct (first_impact_month s0) as [t0|].
      * injection Ht as <-. specialize (IH t0 eq_refl). lia.
      * destruct (Qltb 0 _); [|discriminate]. injection Ht as <-. lia.
Qed.

End Impact.

(** X12: a first impact month that a summary reports is a month of the
    horizon, between 1 and [months]; and when one is reported the share
    of months with positive utility is not zero. *)
Theorem first_impact_month_reported
  (months : Z) (p_to_bc : Q) (params : PZParams) (B0 FS0 : Q) (sm : Summary) :
  simulate_pz months p_to_bc params B0 FS0 = Some sm ->
  forall t, first_impact_month_out sm = Some t ->
            (1 <= t <= months)%Z /\ 0 < pct_months_U_pos sm.
Proof.
  rewrite simulate_pz_state.
  destruct (state_after _ _ _ _ _) as [s|] eqn:E; [|discriminate].
  intros H. injection H as <-.
  destruct (summarize_fields months p_to_bc params s)
    as (_ & _ & _ & _ & _ & -> & _ & _ & _ & _ & ->).
  intros t Ht.
  destruct (run_first_impact_month _ _ _ _ _ _ E t Ht) as [Ht1 Hpos].
  assert (Hm : (1 <= months)%Z) by lia.
  split; [lia|].
  rewrite (proj2 (Z.ltb_lt 0 months)) by lia.
  apply Qlt_shift_div_l.
  - change 0 with (inject_Z 0). rewrite <- Zlt_Qlt. lia.
  - rewrite Qmult_0_l. change 0 with (inject_Z 0). rewrite <- Zlt_Qlt. lia.
Qed.

Lemma first_impact_month_reported_witness :
  exists sm,
    simulate_pz 2 0.30 doubling_revenue_params 0 0 = Some sm /\
    forall t, first_impact_month_out sm = Some t ->
              (1 <= t <= 2)%Z /\ 0 < pct_months_U_pos sm.
Proof.
  exists_result (simulate_pz 2 0.30 doubling_revenue_params 0 0).
  split; [by_evaluation|].
  apply (first_impact_month_reported 2 0.30 doubling_revenue_params 0 0).
  by_evaluation.
Defined.

(** *** The margin *)

Section Growth.

Variable params : PZParams.
Variable p_to_bc B0 FS0 : Q.

Local Abbreviation state_at := (state_after params p_to_bc B0 FS0).

Hypothesis Hm0 : 0 <= m0 params.
Hypothesis Hcap : 0 <= max_margin_growth params.

Lemma month_g_m_range (s : State) :
  0 <= month_g_m params p_to_bc s <= max_margin_growth params.
Proof.
  unfold month_g_m.
  match goal with
  | |- context [py_min ?a (py_max 0 ?x)] =>
      destruct (py_max_spec 0 x) as [[? E1]|[? E1]]; rewrite E1;
      match goal with
      | |- context [py_min a ?y] =>
          destruct (py_min_spec a y) as [[? E2]|[? E2]]; rewrite E2
      end
  end; lra.
Qed.

(** One month never lowers a non-negative margin. *)
Lemma month_body_margin (t : Z) (s s' : State) :
  month_body params p_to_bc t s = Some s' ->
  0 <= m s ->
  m s <= m s'.
Proof.
  intros Hb Hm.
  destruct (month_body_cases _ _ _ _ _ Hb) as [HU|[HU Hden]].
  - rewrite (month_body_freeze _ _ _ _ HU) in Hb. injection Hb as <-.
    cbn. lra.
  - destruct (month_body_positive_growth params p_to_bc t s HU Hden)
      as (s1 & Hs1 & _ & Hm1 & _).
    rewrite Hs1 in Hb. injection Hb as <-. rewrite Hm1.
    pose proof (month_g_m_range s). nra.
Qed.

Lemma run_margin (k : nat) (s : State) :
  state_at k = Some s -> m0 params <= m s.
Proof.
  apply (run_invariant params p_to_bc B0 FS0 (fun _ s => m0 params <= m s)).
  - cbn. lra.
  - intros k0 s0 s' _ IH Hb.
    pose proof (month_body_margin _ _ _ Hb ltac:(lra)). lra.
Qed.

End Growth.

(** X13: with a non-negative initial margin and a non-negative cap
    [max_margin_growth], the margin never decreases from one month of
    a run to the next, so that it never falls below [m0] and the
    summary's [m_end] is at least [m0]. *)
Theorem margin_never_decreases
  (params : PZParams) (p_to_bc B0 FS0 : Q) :
  0 <= m0 params -> 0 <= max_margin_growth params ->
  (forall k s s',
     state_after params p_to_bc B0 FS0 k = Some s ->
     state_after params p_to_bc B0 FS0 (S k) = Some s' ->
     m0 params <= m s /\ m s <= m s') /\
  (forall months sm,
     simulate_pz months p_to_bc params B0 FS0 = Some sm ->
     m0 params <= m_end sm).
Proof.
  intros Hm0 Hcap. split.
  - intros k s s' Hs Hs'.
    pose proof (run_margin params p_to_bc B0 FS0 Hm0 Hcap k s Hs) as H0.
    split; [exact H0|].
    apply state_after_S_inv in Hs' as (s0 & Hs0 & Hb).
    rewrite Hs in Hs0. injection Hs0 as <-.
    apply (month_body_margin params p_to_bc Hcap _ _ _ Hb). lra.
  - intros months sm. rewrite simulate_pz_state.
    destruct (state_after _ _ _ _ _) as [s|] eqn:E; [|discriminate].
    intros H. injection H as <-.
    destruct (summarize_fields months p_to_bc params s)
      as (_ & _ & _ & _ & _ & _ & _ & -> & _).
    now apply (run_margin params p_to_bc B0 FS0 Hm0 Hcap (Z.to_nat months)).
Qed.

Lemma margin_never_decreases_witness :
  exists sm,
    simulate_pz 2 0.30 default_params 0 0 = Some sm /\
    25 <= m_end sm.
Proof.
  exists_result (simulate_pz 2 0.30 default_params 0 0).
  split; [by_evaluation|].
  apply (proj2 (margin_never_decreases default_params 0.30 0 0
                  ltac:(vm_compute; discriminate)
                  ltac:(vm_compute; discriminate)) 2%Z).
  by_evaluation.
Defined.

(** ** The trajectories *)

(** X16: a trajectory that [run_path_until] returns has one row per
    month of the horizon, and its month column reads 1, 2, ...,
    horizon in this order; so for the grid script's [run_path_until]
    and for the dashboard's. *)
Theorem trajectory_months
  (months : Z) (params : PZParams) (A0 m0 BC0 FS0 : Q) :
  (forall traj,
     Grid.run_path_until months params A0 m0 = Some traj ->
     map Grid.row_t traj = month_range months /\
     length traj = Z.to_nat months) /\
  (map Dashboard.row_month
     (Dashboard.run_path_until months params A0 m0 BC0 FS0)
   = month_range months /\
   length (Dashboard.run_path_until months params A0 m0 BC0 FS0)
   = Z.to_nat months).
Proof.
  assert (Hlen : length (month_range months) = Z.to_nat months)
    by (unfold month_range; now rewrite length_map, length_seq).
  split.
  - intros traj H. unfold Grid.run_path_until in H.
    destruct (Grid.run_months _ _ _) as [[s' rows']|] eqn:E; [|discriminate].
    injection H as ->.
    assert (Hcol : map Grid.row_t traj = month_range months)
      by (now rewrite (grid_run_months_column _ _ _ _ _ _ E)).
    split; [exact Hcol|]. now rewrite <- Hlen, <- Hcol, length_map.
  - assert (Hcol : map Dashboard.row_month
                     (Dashboard.run_path_until months params A0 m0 BC0 FS0)
                   = month_range months).
    { unfold Dashboard.run_path_until.
      now rewrite dashboard_run_months_column. }
    split; [exact Hcol|]. now rewrite <- Hlen, <- Hcol, length_map.
Qed.

Lemma trajectory_months_witness :
  exists traj,
    Grid.run_path_until 2 doubling_revenue_params 100 25 = Some traj /\
    map Grid.row_t traj = [1%Z; 2%Z] /\ length traj = 2%nat.
Proof.
  exists_result (Grid.run_path_until 2 doubling_revenue_params 100 25).
  split; [by_evaluation|].
  apply (proj1 (trajectory_months 2 doubling_revenue_params 100 25 0 0)).
  by_evaluation.
Defined.

(** What every step of the dashboard's loop keeps and what every row
    it appends satisfies. *)
Lemma dashboard_run_months_rows (params : PZParams) (A0 m0 : Q)
  (I : Dashboard.Loc -> Prop) (P : Dashboard.Row -> Prop) :
  (forall t s, I s ->
     I (fst (Dashboard.month_body params A0 m0 t s)) /\
     P (snd (Dashboard.month_body params A0 m0 t s))) ->
  forall ts s rows,
    I s -> Forall P rows ->
    Forall P (snd (Dashboard.run_months params A0 m0 ts (s, rows))).
Proof.
  intros Hstep. induction ts as [|t ts IH]; intros s rows Hs Hrows.
  - exact Hrows.
  - cbn [Dashboard.run_months fold_left].
    destruct (Hstep t s Hs) as [Hs1 Hr1].
    destruct (Dashboard.month_body params A0 m0 t s) as [s1 r1].
    fold (Dashboard.run_months params A0 m0 ts (s1, rows ++ [r1])).
    apply IH; [exact Hs1|]. apply Forall_app. split; [exact Hrows|].
    constructor; [exact Hr1 | constructor].
Qed.

(** X17: the dashboard's trajectory is the exogenous model: in every
    row the population and the margin are the initial ones, the revenue
    is [A0 * m0 * (1 + rev_growth) ^ (month - 1)], the share sent to
    investment lies in [0,1], and a month whose utility is not positive
    spends nothing on impact or R&D. *)
Theorem dashboard_rows_exogenous
  (months : Z) (params : PZParams) (A0 m0 BC0 FS0 : Q) :
  Forall
    (fun r =>
       Dashboard.row_people r = A0 /\
       Dashboard.row_margin_per_person r = m0 /\
       Dashboard.row_revenue r
         = A0 * m0 * (1 + rev_growth params) ^ (Dashboard.row_month r - 1) /\
       0 <= Dashboard.row_p_to_investment r <= 1 /\
       (Dashboard.row_utility r <= 0 ->
        Dashboard.row_impact_spend r = 0 /\ Dashboard.row_rd_spend r = 0))
    (Dashboard.run_path_until months params A0 m0 BC0 FS0).
Proof.
  unfold Dashboard.run_path_until.
  apply (dashboard_run_months_rows params A0 m0
           (fun s => Dashboard.A s = A0 /\ Dashboard.m s = m0)).
  - intros t s [HA Hm]. unfold Dashboard.month_body.
    destruct (Qltb 0 _) eqn:HU; cbn; rewrite ?HA, ?Hm.
    + apply Qltb_lt in HU.
      split; [split; reflexivity|].
      split; [reflexivity|]. split; [reflexivity|]. split; [reflexivity|].
      split; [apply clamp01_range|]. intros H. lra.
    + split; [split; reflexivity|].
      split; [reflexivity|]. split; [reflexivity|]. split; [reflexivity|].
      split; [apply clamp01_range|]. intros _. split; reflexivity.
  - split; reflexivity.
  - constructor.
Qed.

(** ** Thresholds in order *)

Lemma cov_geb_mono (c : coverage) (thr1 thr2 : Q) :
  thr1 <= thr2 -> cov_geb c thr2 = true -> cov_geb c thr1 = true.
Proof.
  intros H. destruct c as [q|]; cbn; [|reflexivity].
  rewrite !Qleb_le. lra.
Qed.

Section CrossingOrder.

Context {Row : Type}.
Variable row_month : Row -> Z.
Variable row_cov : Row -> coverage.

(** On a trajectory with months 1, ..., n a lower threshold is crossed
    no later than a higher one, and a crossing month is a month of the
    trajectory. *)
Lemma first_crossing_thresholds (n : Z) (traj : list Row) (thr1 thr2 : Q)
  (t2 : Z) :
  (1 <= n)%Z ->
  map row_month traj = month_range n ->
  thr1 <= thr2 ->
  first_crossing row_month row_cov traj thr2 = Some (Reached t2) ->
  (1 <= t2 <= n)%Z /\
  exists t1,
    first_crossing row_month row_cov traj thr1 = Some (Reached t1) /\
    (t1 <= t2)%Z.
Proof.
  intros Hn Hcol Hthr H2.
  destruct (first_crossing_smallest row_month row_cov n traj thr2 Hn Hcol)
    as (cr2 & E2 & Hcr2).
  rewrite H2 in E2. injection E2 as <-.
  destruct Hcr2 as [(r & Hin & Hmr & Hge) _].
  split.
  - assert (Hm : In (row_month r) (month_range n))
      by (rewrite <- Hcol; now apply in_map).
    unfold month_range in Hm. apply in_map_iff in Hm as (i & Hi & Hseq).
    apply in_seq in Hseq. lia.
  - destruct (first_crossing_smallest row_month row_cov n traj thr1 Hn Hcol)
      as (cr1 & E1 & Hcr1).
    destruct cr1 as [|t1].
    + specialize (Hcr1 r Hin).
      rewrite (cov_geb_mono _ _ _ Hthr Hge) in Hcr1. discriminate.
    + exists t1. split; [exact E1|]. destruct Hcr1 as [_ Hmin].
      rewrite <- Hmr. apply Hmin; [exact Hin|].
      now apply cov_geb_mono with thr2.
Qed.

End CrossingOrder.

Lemma dashboard_first_crossing_None (months : Z) (params : PZParams)
  (A0 m0 BC0 FS0 thr : Q) :
  Dashboard.first_crossing_month
    (Dashboard.run_path_until months params A0 m0 BC0 FS0) thr = None
  <-> (months <= 0)%Z.
Proof.
  split.
  - intros H. destruct (Z.le_gt_cases months 0) as [Hle|Hgt]; [exact Hle|].
    destruct (dashboard_first_crossing_month_correct months params
                A0 m0 BC0 FS0 thr ltac:(lia)) as (cr & E & _).
    congruence.
  - intros H. unfold Dashboard.run_path_until.
    now rewrite (month_range_nonpositive months H).
Qed.

(** X18: [cached_run] raises when the horizon is below one month (the
    [KeyError] of the crossing query on a trajectory without rows).
    When it returns, the three crossing months it reports are in order:
    if coverage 12 is reached then so is coverage 6 and no later, and if
    coverage 6 is reached then so is coverage 3 and no later; and every
    month it reports is a month of the horizon. *)
Theorem cached_run_thresholds
  (horizon : Z) (params : PZParams) (A0 m0 BC0 FS0 : Q) :
  ((horizon <= 0)%Z -> cached_run horizon params A0 m0 BC0 FS0 = None) /\
  (forall traj t3 t6 t12 summary,
     cached_run horizon params A0 m0 BC0 FS0
       = Some (traj, t3, t6, t12, summary) ->
     (1 <= horizon)%Z /\
     (forall c, t12 = Reached c ->
        (1 <= c <= horizon)%Z /\ exists b, t6 = Reached b /\ (b <= c)%Z) /\
     (forall b, t6 = Reached b ->
        (1 <= b <= horizon)%Z /\ exists a, t3 = Reached a /\ (a <= b)%Z) /\
     (forall a, t3 = Reached a -> (1 <= a <= horizon)%Z)).
Proof.
  unfold cached_run. split.
  - intros Hle. cbv zeta.
    now rewrite (proj2 (dashboard_first_crossing_None horizon params
                          A0 m0 BC0 FS0 3) Hle).
  - intros traj t3 t6 t12 summary H. cbv zeta in H.
    destruct (Dashboard.first_crossing_month _ 3) as [c3|] eqn:E3;
      [|discriminate].
    destruct (Dashboard.first_crossing_month _ 6) as [c6|] eqn:E6;
      [|discriminate].
    destruct (Dashboard.first_crossing_month _ 12) as [c12|] eqn:E12;
      [|discriminate].
    destruct (simulate_pz horizon 0.30 params BC0 FS0); [|discriminate].
    injection H as <- <- <- <- <-.
    assert (Hh : (1 <= horizon)%Z).
    { destruct (Z.le_gt_cases horizon 0) as [Hle|Hgt]; [|lia].
      rewrite (proj2 (dashboard_first_crossing_None horizon params
                        A0 m0 BC0 FS0 3) Hle) in E3. discriminate. }
    assert (Hcol : map Dashboard.row_month
                     (Dashboard.run_path_until horizon params A0 m0 BC0 FS0)
                   = month_range horizon).
    { unfold Dashboard.run_path_until.
      now rewrite dashboard_run_months_column. }
    split; [exact Hh|]. split; [|split].
    + intros c ->.
      destruct (first_crossing_thresholds Dashboard.row_month
                  Dashboard.row_FS_coverage_months horizon _ 6 12 c Hh Hcol
                  ltac:(lra) E12) as (Hc & b & Eb & Hb).
      split; [exact Hc|]. exists b. split; [|exact Hb].
      unfold Dashboard.first_crossing_month in E6. congruence.
    + intros b ->.
      destruct (first_crossing_thresholds Dashboard.row_month
                  Dashboard.row_FS_coverage_months horizon _ 3 6 b Hh Hcol
                  ltac:(lra) E6) as (Hb & a & Ea & Ha).
      split; [exact Hb|]. exists a. split; [|exact Ha].
      unfold Dashboard.first_crossing_month in E3. congruence.
    + intros a ->.
      now destruct (first_crossing_thresholds Dashboard.row_month
                      Dashboard.row_FS_coverage_months horizon _ 3 3 a Hh Hcol
                      ltac:(lra) E3) as (Ha & _).
Qed.

Lemma cached_run_thresholds_witness :
  cached_run 0 eager_hiring_params 100 100 0 0 = None /\
  exists traj t3 t6 t12 summary,
    cached_run 3 eager_hiring_params 100 100 0 0
      = Some (traj, t3, t6, t12, summary) /\
    forall b, t6 = Reached b ->
      (1 <= b <= 3)%Z /\ exists a, t3 = Reached a /\ (a <= b)%Z.
Proof.
  split.
  - apply (proj1 (cached_run_thresholds 0 eager_hiring_params 100 100 0 0)).
    lia.
  - destruct (cached_run 3 eager_hiring_params 100 100 0 0)
      as [[[[[traj t3] t6] t12] summary]|] eqn:E.
    + exists traj, t3, t6, t12, summary. split; [reflexivity|].
      apply (proj2 (cached_run_thresholds 3 eager_hiring_params 100 100 0 0)
               traj t3 t6 t12 summary E).
    + exfalso. vm_compute in E. discriminate.
Defined.

(** ** The viability flags of the grid *)

Lemma grid_first_crossing_Some (months : Z) (params : PZParams)
  (a mg thr : Q) (traj : list Grid.Row) (cr : crossing) :
  Grid.run_path_until months params a mg = Some traj ->
  Grid.first_crossing_month traj thr = Some cr ->
  (1 <= months)%Z /\ map Grid.row_t traj = month_range months.
Proof.
  intros Ht Hc. unfold Grid.run_path_until in Ht.
  destruct (Grid.run_months _ _ _) as [[s' rows']|] eqn:E; [|discriminate].
  injection Ht as ->.
  pose proof (grid_run_months_column _ _ _ _ _ _ E) as Hcol. cbn in Hcol.
  split; [|exact Hcol].
  destruct (Z.le_gt_cases months 0) as [Hle|Hgt]; [|lia].
  rewrite (month_range_nonpositive months Hle) in Hcol.
  destruct traj; [discriminate Hc | discriminate Hcol].
Qed.

(** A flag [int(not isnan(t) and pos_ok)]. *)
Lemma viability_flag (t : crossing) (pos_ok : bool) :
  let f := Z.b2z (negb (isnan t) && pos_ok) in
  (f = 0%Z \/ f = 1%Z) /\
  (f = 1%Z <-> pos_ok = true /\ exists c, t = Reached c).
Proof.
  destruct t as [|c], pos_ok; cbn; (split; [auto|]); split;
    try discriminate; try (intros [? [? ?]]; discriminate);
    try (intros [? ?]; discriminate).
  - intros _. split; [reflexivity | now exists c].
  - reflexivity.
Qed.

(** X19: in a row of the viability grid each of the three flags is 0
    or 1, and the flag of a threshold (3, 6 or 12 months of coverage)
    is 1 exactly when that threshold was reached and at least 70% of
    the months had positive utility.  A reported time to a threshold is
    a month of the horizon, and the times are in order: if 12 is
    reached then so is 6 and no later, if 6 is reached then so is 3 and
    no later.  Hence the flags are nested: viable at 12 implies viable
    at 6, which implies viable at 3. *)
Theorem grid_point_flags (base : PZParams) (H : Z) (a mg : Q) (gp : GridPoint) :
  grid_point base H a mg = Some gp ->
  ((viable_fs3 gp = 0%Z \/ viable_fs3 gp = 1%Z) /\
   (viable_fs6 gp = 0%Z \/ viable_fs6 gp = 1%Z) /\
   (viable_fs12 gp = 0%Z \/ viable_fs12 gp = 1%Z)) /\
  ((viable_fs3 gp = 1%Z <->
    0.70 <= gp_pct_months_U_pos gp /\ exists t, time_to_fs3 gp = Reached t) /\
   (viable_fs6 gp = 1%Z <->
    0.70 <= gp_pct_months_U_pos gp /\ exists t, time_to_fs6 gp = Reached t) /\
   (viable_fs12 gp = 1%Z <->
    0.70 <= gp_pct_months_U_pos gp /\ exists t, time_to_fs12 gp = Reached t)) /\
  ((forall t, time_to_fs3 gp = Reached t -> (1 <= t <= H)%Z) /\
   (forall b, time_to_fs6 gp = Reached b ->
      (1 <= b <= H)%Z /\ exists t, time_to_fs3 gp = Reached t /\ (t <= b)%Z) /\
   (forall c, time_to_fs12 gp = Reached c ->
      (1 <= c <= H)%Z /\ exists b, time_to_fs6 gp = Reached b /\ (b <= c)%Z)) /\
  ((viable_fs12 gp = 1%Z -> viable_fs6 gp = 1%Z) /\
   (viable_fs6 gp = 1%Z -> viable_fs3 gp = 1%Z)).
Proof.
  unfold grid_point.
  destruct (Grid.run_path_until _ _ _ _) as [traj|] eqn:Et; [|discriminate].
  destruct (Grid.first_crossing_month traj 3) as [t3|] eqn:E3;
    [|discriminate].
  destruct (Grid.first_crossing_month traj 6) as [t6|] eqn:E6;
    [|discriminate].
  destruct (Grid.first_crossing_month traj 12) as [t12|] eqn:E12;
    [|discriminate].
  destruct (simulate_pz _ _ _ _ _) as [sm|]; [|discriminate].
  intros Hgp. injection Hgp as <-.
  cbn [viable_fs3 viable_fs6 viable_fs12 time_to_fs3 time_to_fs6
       time_to_fs12 gp_pct_months_U_pos].
  destruct (grid_first_crossing_Some _ _ _ _ _ _ _ Et E3) as [HH Hcol].
  assert (H12 : forall c, t12 = Reached c ->
                          (1 <= c <= H)%Z /\
                          exists b, t6 = Reached b /\ (b <= c)%Z).
  { intros c ->.
    destruct (first_crossing_thresholds Grid.row_t Grid.row_fs_cov_after
                H traj 6 12 c HH Hcol ltac:(lra) E12) as (Hc & b & Eb & Hb).
    split; [exact Hc|]. exists b. split; [|exact Hb].
    unfold Grid.first_crossing_month in E6. congruence. }
  assert (H6 : forall b, t6 = Reached b ->
                         (1 <= b <= H)%Z /\
                         exists t, t3 = Reached t /\ (t <= b)%Z).
  { intros b ->.
    destruct (first_crossing_thresholds Grid.row_t Grid.row_fs_cov_after
                H traj 3 6 b HH Hcol ltac:(lra) E6) as (Hb & t & Et3 & Ht).
    split; [exact Hb|]. exists t. split; [|exact Ht].
    unfold Grid.first_crossing_month in E3. congruence. }
  assert (H3 : forall t, t3 = Reached t -> (1 <= t <= H)%Z).
  { intros t ->.
    now destruct (first_crossing_thresholds Grid.row_t Grid.row_fs_cov_after
                    H traj 3 3 t HH Hcol ltac:(lra) E3) as (Ht & _). }
  set (pos_ok := Qleb 0.70 (pct_months_U_pos sm)).
  assert (Hpos : pos_ok = true <-> 0.70 <= pct_months_U_pos sm)
    by apply Qleb_le.
  destruct (viability_flag t3 pos_ok) as [B3 F3].
  destruct (viability_flag t6 pos_ok) as [B6 F6].
  destruct (viability_flag t12 pos_ok) as [B12 F12].
  cbv zeta in B3, F3, B6, F6, B12, F12.
  rewrite Hpos in F3, F6, F12.
  split; [auto|]. split; [auto|]. split; [auto|].
  split.
  - intros V. apply F12 in V as [Hp [c Hc]].
    destruct (H12 c Hc) as (_ & b & Hb & _).
    apply F6. split; [exact Hp | now exists b].
  - intros V. apply F6 in V as [Hp [b Hb]].
    destruct (H6 b Hb) as (_ & t & Ht & _).
    apply F3. split; [exact Hp | now exists t].
Qed.

Lemma grid_point_flags_witness :
  exists gp,
    grid_point eager_hiring_params 2 100 100 = Some gp /\
    (viable_fs12 gp = 1%Z <->
     0.70 <= gp_pct_months_U_pos gp /\
     exists t, time_to_fs12 gp = Reached t) /\
    (viable_fs12 gp = 1%Z -> viable_fs6 gp = 1%Z).
Proof.
  exists_result (grid_point eager_hiring_params 2 100 100).
  split; [by_evaluation|].
  split; apply (grid_point_flags eager_hiring_params 2 100 100);
    by_evaluation.
Defined.

(** ** Phase 1 ([simulate_phase1]) *)

Section Phase1Run.

Variable A0 : Z.
Variable C_base r_annual alpha margin B0 : Q.

(** The state once the first [k] months have run. *)
Local Abbreviation state1 k :=
  (Phase1.run_months A0 C_base r_annual alpha margin
     (month_range (Z.of_nat k)) (Phase1.init_state B0)).

Local Abbreviation body1 :=
  (Phase1.month_body A0 C_base r_annual alpha margin).

(** The utility of a month that starts with bond capital [b]. *)
Local Abbreviation u_of b :=
  (inject_Z A0 * margin + Phase1.r_monthly r_annual * b - C_base).



End Phase1Run.




(** ** The sweeps *)

Lemma fold_left_append_map {X R : Type} (g : X -> R) (l : list X)
  (rows : list R) :
  fold_left (fun rows x => rows ++ [g x]) l rows = rows ++ map g l.
Proof.
  revert rows. induction l as [|x l IH]; intros rows; cbn.
  - now rewrite app_nil_r.
  - now rewrite IH, <- app_assoc.
Qed.

Lemma fold_left_append_flat_map {X R : Type} (f : X -> list R) (l : list X)
  (rows : list R) :
  fold_left (fun rows x => rows ++ f x) l rows = rows ++ flat_map f l.
Proof.
  revert rows. induction l as [|x l IH]; intros rows; cbn.
  - now rewrite app_nil_r.
  - now rewrite IH, <- app_assoc.
Qed.

Lemma fold_left_ext {X Y : Type} (f g : Y -> X -> Y) (l : list X) (y : Y) :
  (forall y x, f y x = g y x) -> fold_left f l y = fold_left g l y.
Proof.
  intros H. revert y. induction l as [|x l IH]; intros y; cbn;
    [reflexivity|]. now rewrite H, IH.
Qed.

Lemma length_flat_map_const {X R : Type} (f : X -> list R) (l : list X)
  (n : nat) :
  (forall x, length (f x) = n) -> length (flat_map f l) = (length l * n)%nat.
Proof.
  intros H. induction l as [|x l IH]; cbn; [reflexivity|].
  now rewrite length_app, H, IH.
Qed.

(** X23: [run_sweep] returns one Phase 1 summary for every horizon,
    margin and reinvested share of the parameters, the horizons
    outermost and the shares innermost, in the order the parameters
    list them: as many rows as the product of the three lengths. *)
Theorem run_sweep_rows (params : Phase1.ModelParams) :
  Phase1.run_sweep params =
  flat_map
    (fun H =>
       flat_map
         (fun mg =>
            map (fun a =>
                   Phase1.simulate_phase1 H (Phase1.A0 params)
                     (Phase1.C_base params) (Phase1.r_annual params)
                     a mg (Phase1.B0 params))
              (Phase1.alphas params))
         (Phase1.margins params))
    (Phase1.horizons params) /\
  length (Phase1.run_sweep params) =
  (length (Phase1.horizons params) * (length (Phase1.margins params)
   * length (Phase1.alphas params)))%nat.
Proof.
  assert (E : Phase1.run_sweep params =
              flat_map
                (fun H =>
                   flat_map
                     (fun mg =>
                        map (fun a =>
                               Phase1.simulate_phase1 H (Phase1.A0 params)
                                 (Phase1.C_base params)
                                 (Phase1.r_annual params)
                                 a mg (Phase1.B0 params))
                          (Phase1.alphas params))
                     (Phase1.margins params))
                (Phase1.horizons params)).
  { unfold Phase1.run_sweep.
    rewrite (fold_left_ext _
               (fun rows H =>
                  rows ++
                  flat_map
                    (fun mg =>
                       map (fun a =>
                              Phase1.simulate_phase1 H (Phase1.A0 params)
                                (Phase1.C_base params)
                                (Phase1.r_annual params)
                                a mg (Phase1.B0 params))
                         (Phase1.alphas params))
                    (Phase1.margins params))).
    - now rewrite fold_left_append_flat_map.
    - intros rows H.
      rewrite (fold_left_ext _
                 (fun rows mg =>
                    rows ++
                    map (fun a =>
                           Phase1.simulate_phase1 H (Phase1.A0 params)
                             (Phase1.C_base params)
                             (Phase1.r_annual params)
                             a mg (Phase1.B0 params))
                      (Phase1.alphas params))).
      + now rewrite fold_left_append_flat_map.
      + intros rows' mg. now rewrite fold_left_append_map. }
  split; [exact E|]. rewrite E.
  apply length_flat_map_const. intros H.
  apply length_flat_map_const. intros mg. apply length_map.
Qed.

(** *** The override sweep *)

Lemma append_run_None (r : option Summary) : append_run None r = None.
Proof. reflexivity. Qed.

Lemma fold_append_run_None {X : Type} (f : X -> option Summary) (l : list X) :
  fold_left (fun acc x => append_run acc (f x)) l None = None.
Proof. induction l as [|x l IH]; [reflexivity | exact IH]. Qed.

(** A loop of [append_run] that ends well has appended one result per
    element, in order. *)
Lemma fold_append_run_Some {X : Type} (f : X -> option Summary) (l : list X) :
  forall rows out,
    fold_left (fun acc x => append_run acc (f x)) l (Some rows) = Some out ->
    exists new, out = rows ++ new /\
                Forall2 (fun x sm => f x = Some sm) l new.
Proof.
  induction l as [|x l IH]; intros rows out H; cbn in H.
  - injection H as <-. exists []. split; [now rewrite app_nil_r | constructor].
  - destruct (f x) as [sm|] eqn:E.
    + apply IH in H as (new & -> & Hall).
      exists (sm :: new). split; [now rewrite <- app_assoc|].
      now constructor.
    + rewrite fold_append_run_None in H. discriminate.
Qed.

Lemma nested_append_run_None {X Y : Type} (f : X -> Y -> option Summary)
  (l : list X) (l' : list Y) :
  fold_left
    (fun acc x => fold_left (fun acc y => append_run acc (f x y)) l' acc)
    l None = None.
Proof.
  induction l as [|x l IH]; [reflexivity|]. cbn.
  now rewrite fold_append_run_None.
Qed.

Lemma nested_append_run_Some {X Y : Type} (f : X -> Y -> option Summary)
  (l : list X) (l' : list Y) :
  forall rows out,
    fold_left
      (fun acc x => fold_left (fun acc y => append_run acc (f x y)) l' acc)
      l (Some rows) = Some out ->
    exists new, out = rows ++ new /\
                Forall2 (fun xy sm => f (fst xy) (snd xy) = Some sm)
                  (list_prod l l') new.
Proof.
  induction l as [|x l IH]; intros rows out H; cbn in H.
  - injection H as <-. exists []. split; [now rewrite app_nil_r | constructor].
  - destruct (fold_left (fun acc y => append_run acc (f x y)) l' (Some rows))
      as [rows1|] eqn:E.
    + apply fold_append_run_Some in E as (new1 & -> & Hall1).
      apply IH in H as (new & -> & Hall).
      exists (new1 ++ new). split; [now rewrite <- app_assoc|].
      cbn. apply Forall2_app; [|exact Hall].
      clear - Hall1. induction Hall1; cbn; constructor; auto.
    + rewrite nested_append_run_None in H. discriminate.
Qed.

(** With the override in [0,1], the last share of a run is unset or is
    the (clamped) override. *)
Lemma run_last_p_eff_override (params : PZParams) (p_to_bc B0 FS0 : Q)
  (k : nat) (s : State) :
  0 <= p_override params <= 1 ->
  state_after params p_to_bc B0 FS0 k = Some s ->
  last_p_eff s = None \/ last_p_eff s = Some (clamp (p_override params) 0 1).
Proof.
  intros Hov.
  apply (run_invariant params p_to_bc B0 FS0
           (fun _ s => last_p_eff s = None \/
                       last_p_eff s = Some (clamp (p_override params) 0 1))).
  - left. reflexivity.
  - intros k0 s0 s' _ IH Hb.
    destruct (month_body_cases _ _ _ _ _ Hb) as [HU|[HU Hden]].
    + rewrite (month_body_freeze _ _ _ _ HU) in Hb. injection Hb as <-.
      exact IH.
    + destruct (override_in_unit_used params p_to_bc (Z.of_nat (S k0)) s0
                  HU Hden Hov) as (s1 & Hs1 & Hp).
      rewrite Hs1 in Hb. injection Hb as <-. now right.
Qed.

(** X24: when the override sweep returns, it has one row for every
    horizon and every value of [p], horizons outermost, each carrying
    the label of the override policy, its horizon and its [p].  For a
    value of [p] in [0,1] the reported last effective share is either
    NaN (no month of that run had positive utility) or numerically
    [p], so the column that repeats [p_eff_last] as "the override
    used" shows [p] exactly on the runs that had a positive month. *)
Theorem run_override_sweep_rows
  (params : PZParams) (horizons : list Z) (p_values : list Q)
  (df : list (policy * Summary)) :
  run_override_sweep params horizons p_values = Some df ->
  Forall2
    (fun Hp row =>
       fst row = OVERRIDE_fixed_p /\
       months_out (snd row) = fst Hp /\
       p_to_bc_input (snd row) = snd Hp /\
       (0 <= snd Hp <= 1 ->
        (p_eff_last (snd row) = None /\ pct_months_U_pos (snd row) == 0) \/
        (exists q, p_eff_last (snd row) = Some q /\ q == snd Hp)))
    (list_prod horizons p_values) df.
Proof.
  unfold run_override_sweep.
  destruct (fold_left _ horizons (Some [])) as [rows|] eqn:E; [|discriminate].
  intros H. injection H as <-.
  apply (nested_append_run_Some
           (fun H p => simulate_pz H p
                         (set_p_override p (set_use_dynamic_p true params))
                         0 0)) in E as (new & -> & Hall).
  cbn [app]. induction Hall as [|[H p] sm l new Hsim Hall IH];
    cbn [map]; constructor; [|exact IH].
  cbn [fst snd] in *. split; [reflexivity|].
  pose proof Hsim as Hsim'.
  rewrite simulate_pz_state in Hsim.
  destruct (state_after _ _ _ _ _) as [s|] eqn:Es; [|discriminate].
  injection Hsim as <-.
  destruct (summarize_fields H p
              (set_p_override p (set_use_dynamic_p true params)) s)
    as (_ & _ & Hpe & _).
  assert (Hm : months_out (summarize H p
                 (set_p_override p (set_use_dynamic_p true params)) s) = H
               /\ p_to_bc_input (summarize H p
                 (set_p_override p (set_use_dynamic_p true params)) s) = p).
  { unfold summarize. destruct (p_bounds_by_fs _ _) as [[[? ?] ?] ?].
    split; reflexivity. }
  destruct Hm as [Hm1 Hm2]. split; [exact Hm1|]. split; [exact Hm2|].
  intros Hp.
  destruct (run_last_p_eff_override
              (set_p_override p (set_use_dynamic_p true params)) p 0 0
              (Z.to_nat H) s Hp Es) as [Hn|Hs].
  - left. rewrite Hpe. split; [exact Hn|].
    destruct (run_counters _ _ _ _ _ _ Es) as (_ & _ & _ & Hl).
    destruct (summarize_fields H p
                (set_p_override p (set_use_dynamic_p true params)) s)
      as (_ & _ & _ & _ & _ & _ & _ & _ & _ & _ & ->).
    destruct Hl as [(H0 & _)|(_ & q & ph & Hq & _)]; [|congruence].
    rewrite H0. destruct (0 <? H)%Z; [|reflexivity].
    unfold Qdiv. change (inject_Z 0) with 0. ring.
  - right. exists (clamp p 0 1). rewrite Hpe. split; [exact Hs|].
    now apply clamp_id.
Qed.

Lemma run_override_sweep_rows_witness :
  exists df,
    run_override_sweep eager_hiring_params [1%Z; 2%Z] [0.2; 0.8] = Some df /\
    length df = 4%nat.
Proof.
  exists_result (run_override_sweep eager_hiring_params [1%Z; 2%Z] [0.2; 0.8]).
  split; [by_evaluation|].
  pose proof (run_override_sweep_rows eager_hiring_params [1%Z; 2%Z]
                [0.2; 0.8] _ ltac:(by_evaluation)) as H.
  apply Forall2_length in H. rewrite <- H. reflexivity.
Defined.

(** *** The automatic policy *)

Lemma p_dynamic_global_range (cov : coverage) (p4 : Q) :
  0.40 <= p4 ->
  0.05 <= p_dynamic_from_fs cov p4 /\
  (p_dynamic_from_fs cov p4 <= 0.50 \/ p_dynamic_from_fs cov p4 <= p4).
Proof.
  intros Hp. unfold p_dynamic_from_fs.
  destruct (p_bounds_cases cov p4)
    as [(c & _ & _ & ->)|[(c & _ & _ & ->)|[(c & _ & _ & ->)
       |[(c & _ & _ & ->)|(_ & ->)]]]];
    try (pose proof (clamp01_range (c / 3)));
    try (pose proof (clamp01_range ((c - 3) / 3)));
    try (pose proof (clamp01_range ((c - 6) / 6)));
    try (pose proof (clamp01_range ((c - 12) / 12))).
  - split; [|left]; nra.
  - split; [|left]; nra.
  - split; [|left]; nra.
  - split; [|right]; nra.
  - split; [|right]; lra.
Qed.

(** Without an override and with the dynamic policy on, the last share
    of a run is unset or is the dynamic share of some coverage. *)
Lemma run_last_p_eff_dynamic (params : PZParams) (p_to_bc B0 FS0 : Q)
  (k : nat) (s : State) :
  ~ 0 <= p_override params <= 1 ->
  use_dynamic_p params = true ->
  state_after params p_to_bc B0 FS0 k = Some s ->
  last_p_eff s = None \/
  exists cov,
    last_p_eff s = Some (clamp (p_dynamic_from_fs cov (p4_max params)) 0 1).
Proof.
  intros Hov Hdyn.
  apply (run_invariant params p_to_bc B0 FS0
           (fun _ s =>
              last_p_eff s = None \/
              exists cov,
                last_p_eff s
                = Some (clamp (p_dynamic_from_fs cov (p4_max params)) 0 1))).
  - left. reflexivity.
  - intros k0 s0 s' _ IH Hb.
    destruct (month_body_cases _ _ _ _ _ Hb) as [HU|[HU Hden]].
    + rewrite (month_body_freeze _ _ _ _ HU) in Hb. injection Hb as <-.
      exact IH.
    + destruct (month_body_positive params p_to_bc (Z.of_nat (S k0)) s0
                  HU Hden)
        as (s1 & Hs1 & _ & _ & _ & _ & _ & _ & _ & _ & _ & Hp).
      rewrite Hs1 in Hb. injection Hb as <-. right.
      exists (month_coverage params s0). rewrite Hp.
      unfold month_p_eff, effective_p.
      apply in_unit_false in Hov. now rewrite Hov, Hdyn.
Qed.

(** X25: when [run_auto] returns, it has one row per horizon, in
    order, labelled with the automatic policy, run with the fixed
    input 0.30 and whatever override or policy switch the caller's
    parameters carry switched to "no override, dynamic".  With
    [0.40 <= p4_max <= 1] a reported last effective share is a dynamic
    share: at least 0.05 and at most the larger of 0.50 and
    [p4_max]. *)
Theorem run_auto_rows
  (params : PZParams) (horizons : list Z) (df : list (policy * Summary)) :
  run_auto params horizons = Some df ->
  Forall2
    (fun H row =>
       fst row = AUTO_p /\
       simulate_pz H 0.30
         (set_p_override (-1) (set_use_dynamic_p true params)) 0 0
       = Some (snd row) /\
       (0.40 <= p4_max params <= 1 ->
        forall q, p_eff_last (snd row) = Some q ->
                  0.05 <= q /\ (q <= 0.50 \/ q <= p4_max params)))
    horizons df.
Proof.
  unfold run_auto.
  destruct (fold_left _ horizons (Some [])) as [rows|] eqn:E; [|discriminate].
  intros H. injection H as <-.
  apply (fold_append_run_Some
           (fun H => simulate_pz H 0.30
                       (set_p_override (-1) (set_use_dynamic_p true params))
                       0 0)) in E as (new & -> & Hall).
  cbn [app]. induction Hall as [|H sm l new Hsim Hall IH];
    cbn [map]; constructor; [|exact IH].
  cbn [fst snd]. split; [reflexivity|]. split; [exact Hsim|].
  intros [Hp4 Hp4'] q Hq.
  rewrite simulate_pz_state in Hsim.
  destruct (state_after _ _ _ _ _) as [s|] eqn:Es; [|discriminate].
  injection Hsim as <-.
  destruct (summarize_fields H 0.30
              (set_p_override (-1) (set_use_dynamic_p true params)) s)
    as (_ & _ & Hpe & _).
  rewrite Hpe in Hq.
  destruct (run_last_p_eff_dynamic
              (set_p_override (-1) (set_use_dynamic_p true params))
              0.30 0 0 (Z.to_nat H) s) as [Hn|(cov & Hs)].
  - intros [Hc _]. vm_compute in Hc. now apply Hc.
  - reflexivity.
  - exact Es.
  - congruence.
  - rewrite Hs in Hq. injection Hq as <-. cbn [p4_max set_p_override
      set_use_dynamic_p].
    destruct (p_dynamic_global_range cov (p4_max params) Hp4) as [H1 H2].
    rewrite (clamp_id (p_dynamic_from_fs cov (p4_max params)) 0 1).
    + split; [exact H1 | exact H2].
    + split; [lra | destruct H2; lra].
Qed.

Lemma run_auto_rows_witness :
  exists df,
    run_auto eager_hiring_params [1%Z; 2%Z] = Some df /\
    length df = 2%nat.
Proof.
  exists_result (run_auto eager_hiring_params [1%Z; 2%Z]).
  split; [by_evaluation|].
  pose proof (run_auto_rows eager_hiring_params [1%Z; 2%Z] _
                ltac:(by_evaluation)) as H.
  apply Forall2_length in H. rewrite <- H. reflexivity.
Defined.

(** ** The dashboard trajectory never goes down *)

Lemma last_cons_default {X : Type} (l : list X) (x d d' : X) :
  last (x :: l) d = last (x :: l) d'.
Proof.
  revert x. induction l as [|y tl IH]; intros x; [reflexivity|].
  change (last (y :: tl) d = last (y :: tl) d'). apply IH.
Qed.

Lemma steps_from_snoc (e : Z) (es : list Z) (x : Z) :
  steps_from e es ->
  (last es e <= x <= last es e + 1)%Z ->
  steps_from e (es ++ [x]).
Proof.
  revert e. induction es as [|y tl IH]; intros e Hs Hx.
  - cbn in *. auto.
  - destruct Hs as [Hy Htl]. cbn [app steps_from]. split; [exact Hy|].
    apply IH; [exact Htl|].
    destruct tl as [|z tl']; [exact Hx|].
    rewrite (last_cons_default tl' z y e).
    exact Hx.
Qed.

Lemma steps_from_nth (es : list Z) :
  forall e i j x y,
    steps_from e es -> (i <= j)%nat ->
    nth_error es i = Some x -> nth_error es j = Some y ->
    (e <= x <= y)%Z /\ (y <= e + Z.of_nat (S j))%Z.
Proof.
  induction es as [|z tl IH]; intros e i j x y Hs Hij Hi Hj.
  - destruct i; discriminate.
  - destruct Hs as [Hz Htl]. destruct j as [|j].
    + assert (i = 0%nat) by lia. subst i. cbn in Hi, Hj.
      injection Hi as <-. injection Hj as <-. lia.
    + destruct i as [|i].
      * cbn in Hi. injection Hi as <-. cbn in Hj.
        destruct (IH z j j y y Htl (Nat.le_refl j) Hj Hj) as [H1 H2]. lia.
      * cbn in Hi, Hj.
        destruct (IH z i j x y Htl ltac:(lia) Hi Hj) as [H1 H2]. lia.
Qed.

(** One month of the dashboard's loop keeps the head count or adds one
    to it, and the row shows the new head count. *)
Lemma dashboard_month_head_count (params : PZParams) (A0 m0 : Q) (t : Z)
  (s : Dashboard.Loc) :
  let '(s', r) := Dashboard.month_body params A0 m0 t s in
  (Dashboard.employees s <= Dashboard.employees s'
   <= Dashboard.employees s + 1)%Z /\
  Dashboard.row_employees r = Dashboard.employees s'.
Proof.
  unfold Dashboard.month_body.
  destruct (Qltb 0 _); cbn; [|split; [lia | reflexivity]].
  split; [destruct (_ && _); lia | reflexivity].
Qed.

Lemma dashboard_run_months_head_count (params : PZParams) (A0 m0 : Q)
  (e0 : Z) (ts : list Z) :
  forall s rows,
    steps_from e0 (map Dashboard.row_employees rows) ->
    last (map Dashboard.row_employees rows) e0 = Dashboard.employees s ->
    steps_from e0
      (map Dashboard.row_employees
         (snd (Dashboard.run_months params A0 m0 ts (s, rows)))).
Proof.
  induction ts as [|t ts IH]; intros s rows Hs Hl; [exact Hs|].
  cbn [Dashboard.run_months fold_left].
  pose proof (dashboard_month_head_count params A0 m0 t s) as Hm.
  destruct (Dashboard.month_body params A0 m0 t s) as [s1 r1].
  destruct Hm as [He Hr].
  fold (Dashboard.run_months params A0 m0 ts (s1, rows ++ [r1])).
  apply IH.
  - rewrite map_app. cbn [map]. apply steps_from_snoc; [exact Hs|].
    rewrite Hl, Hr. exact He.
  - rewrite map_app. cbn [map]. now rewrite last_last.
Qed.

(** X26: down the rows of a trajectory of the dashboard's
    [run_path_until] the head count starts from [employees0] and goes
    from each row to the next by staying or by adding one: it never
    decreases, and in row [j] (month [j + 1]) it is at most
    [employees0 + j + 1]. *)
Theorem dashboard_head_count_steps
  (months : Z) (params : PZParams) (A0 m0 BC0 FS0 : Q) :
  let es := map Dashboard.row_employees
              (Dashboard.run_path_until months params A0 m0 BC0 FS0) in
  steps_from (employees0 params) es /\
  forall i j x y,
    (i <= j)%nat -> nth_error es i = Some x -> nth_error es j = Some y ->
    (employees0 params <= x <= y)%Z /\
    (y <= employees0 params + Z.of_nat (S j))%Z.
Proof.
  cbv zeta.
  assert (Hs : steps_from (employees0 params)
                 (map Dashboard.row_employees
                    (Dashboard.run_path_until months params A0 m0 BC0 FS0))).
  { unfold Dashboard.run_path_until.
    apply dashboard_run_months_head_count; [exact I | reflexivity]. }
  split; [exact Hs|].
  intros i j x y. now apply steps_from_nth.
Qed.

Lemma dashboard_head_count_steps_witness :
  steps_from 2
    (map Dashboard.row_employees
       (Dashboard.run_path_until 3 eager_hiring_params 100 100 0 0)).
Proof.
  apply (proj1 (dashboard_head_count_steps 3 eager_hiring_params 100 100 0 0)).
Defined.
